(** * Adaptive video selection: a shallow embedding of [__main__.py]

    The development follows the richer of the two script variants of the
    source (the one with the recency bonus and the ten-column feedback
    file): [load_feedback], [save_feedback], [pick_video] and
    [interactive_loop].

    Python values are embedded as they are in the script: candidate
    videos are dictionaries with a fixed set of keys (a record here),
    feedback rows are dictionaries whose keys depend on the header of
    the CSV file (an insertion-ordered association list here), and the
    feedback memory is an insertion-ordered dictionary from links to
    rows.  Exceptions are results of an error monad. *)

From Stdlib Require Import ZArith Lia Ascii String DecimalString.
From stdpp Require Import base option list strings gmap.

Local Open Scope Z_scope.

(** ** Python values and exceptions *)

Inductive pyval : Type :=
  | PNone
  | PStr (s : string)
  | PInt (n : Z)
  | PList (l : list string).

#[global] Instance pyval_eq_dec : EqDecision pyval.
Proof. solve_decision. Defined.

(** Python's [==] on the values above: equal values of the same type. *)
Definition py_eq (a b : pyval) : bool := bool_decide (a = b).

Inductive exn : Type :=
  | KeyError (k : pyval)
  | ValueError
  | IndexError
  | TypeError.

Inductive result (A : Type) : Type :=
  | Ok (a : A)
  | Raise (e : exn).
Arguments Ok {A} a.
Arguments Raise {A} e.

#[global] Instance result_ret : MRet result := fun A a => Ok a.
#[global] Instance result_bind : MBind result := fun A B f m =>
  match m with
  | Ok a => f a
  | Raise e => Raise e
  end.

(** ** Insertion-ordered dictionaries

    A Python [dict] iterates in insertion order; assigning to a key that
    is already present replaces the value and keeps the position. *)

Section dict.
Context {K V : Type} `{EqDecision K}.

Fixpoint dict_get (k : K) (d : list (K * V)) : option V :=
  match d with
  | [] => None
  | (k', v) :: d' => if decide (k = k') then Some v else dict_get k d'
  end.

(** [k in d] *)
Definition dict_in (k : K) (d : list (K * V)) : bool :=
  bool_decide (is_Some (dict_get k d)).

(** [d[k] = v] *)
Fixpoint dict_set (k : K) (v : V) (d : list (K * V)) : list (K * V) :=
  match d with
  | [] => [(k, v)]
  | (k', v') :: d' =>
      if decide (k = k') then (k', v) :: d' else (k', v') :: dict_set k v d'
  end.

(** [d.values()] *)
Definition dict_values (d : list (K * V)) : list V := d.*2.

(** [a | b] *)
Definition dict_or (a b : list (K * V)) : list (K * V) :=
  fold_left (fun d kv => dict_set kv.1 kv.2 d) b a.

(** [dict(pairs)] *)
Definition dict_of (pairs : list (K * V)) : list (K * V) := dict_or [] pairs.
End dict.

Abbreviation pydict := (list (pyval * pyval)).
Abbreviation history := (list (pyval * list (pyval * pyval))).

(** [d[k]] for a string key [k]. *)
Definition getitem (d : pydict) (k : string) : result pyval :=
  match dict_get (PStr k) d with
  | Some v => Ok v
  | None => Raise (KeyError (PStr k))
  end.

(** ** Candidates

    Both fetchers of the script build every candidate with the same nine
    keys, in this order. *)

Record video : Type := mkVideo {
  keyword : string;
  title : string;
  link : string;
  video_id : string;
  channel : string;
  description : string;
  duration : Z;
  upload_date : option string;
  language : string
}.

#[global] Instance video_eq_dec : EqDecision video.
Proof. solve_decision. Defined.

Definition py_opt_str (o : option string) : pyval :=
  match o with
  | Some s => PStr s
  | None => PNone
  end.

Definition video_dict (v : video) : pydict :=
  [ (PStr "keyword", PStr (keyword v));
    (PStr "title", PStr (title v));
    (PStr "link", PStr (link v));
    (PStr "id", PStr (video_id v));
    (PStr "channel", PStr (channel v));
    (PStr "description", PStr (description v));
    (PStr "duration", PInt (duration v));
    (PStr "upload_date", py_opt_str (upload_date v));
    (PStr "language", PStr (language v)) ].

(** ** Wall-clock time

    A naive [datetime]: the proleptic Gregorian ordinal of its date and
    the microseconds elapsed since midnight.  Ordinal 1 is the smallest
    date Python represents. *)

Record datetime : Type := mkDatetime {
  ordinal : Z;
  micros : Z
}.

(** [a > b] *)
Definition datetime_gt (a b : datetime) : bool :=
  (ordinal b <? ordinal a) || ((ordinal a =? ordinal b) && (micros b <? micros a)).

(** [t - timedelta(days=n)]; [None] is [OverflowError]. *)
Definition minus_days (t : datetime) (n : Z) : option datetime :=
  if ordinal t - n <? 1 then None
  else Some {| ordinal := ordinal t - n; micros := micros t |}.

(** ** The weight of a candidate (the body of the loop of [pick_video]) *)

Section weight.
(** [datetime.strptime(s, "%Y%m%d")]: the ordinal of the parsed date,
    or [None] when the library raises. *)
Variable strptime_Ymd : string -> option Z.

(** One iteration of [for fb in feedback_memory.values()]. *)
Definition keyword_step (v : video) (base : Z) (fb : pydict) : result Z :=
  kw ← getitem fb "keyword";
  if py_eq kw (PStr (keyword v)) then
    f ← getitem fb "feedback";
    if py_eq f (PStr "definitely") then mret (base + 3)
    else if py_eq f (PStr "maybe") then mret (base + 1)
    else if py_eq f (PStr "never") then mret 0
    else mret base
  else mret base.

Fixpoint keyword_loop (v : video) (base : Z) (fbs : list pydict) : result Z :=
  match fbs with
  | [] => mret base
  | fb :: fbs' => base' ← keyword_step v base fb; keyword_loop v base' fbs'
  end.

(** The keyword boost: [base = 1] followed by the loop over the values
    of the feedback memory. *)
Definition keyword_fold (v : video) (feedback_memory : history) : result Z :=
  keyword_loop v 1 (dict_values feedback_memory).

(** The test of the recency boost: a truthy [upload_date] that parses
    and lies after [now - timedelta(days=180)]; any exception inside
    the [try] leaves the weight alone. *)
Definition recent (now : datetime) (v : video) : bool :=
  match upload_date v with
  | Some s =>
      if bool_decide (s = EmptyString) then false
      else match strptime_Ymd s with
           | Some d =>
               match minus_days now 180 with
               | Some t => datetime_gt {| ordinal := d; micros := 0 |} t
               | None => false
               end
           | None => false
           end
  | None => false
  end.

Definition weight (now : datetime) (v : video) (feedback_memory : history)
  : result Z :=
  base ← keyword_fold v feedback_memory;
  mret (if recent now v then base + 2 else base).
End weight.

(** ** The feedback file

    The file is seen through the [csv] module: an existing file is the
    list of rows (lists of fields) that the module's reader parses from
    its bytes, and [writerow] adds one row at the end.  A file that does
    not exist is [None]. *)

Abbreviation storage := (option (list (list string))).

Definition FIELDNAMES : list string :=
  [ "timestamp"; "keyword"; "title"; "link"; "channel";
    "duration"; "feedback"; "summary"; "upload_date"; "language" ].

Definition CR : ascii := "013"%char.
Definition LF : ascii := "010"%char.

(** [load_feedback] opens the file in text mode without the [newline] argument, so
    every carriage return (with the line feed that follows it, if any)
    reaches the reader as a line feed. *)
Fixpoint universal_newlines (s : string) : string :=
  match s with
  | EmptyString => EmptyString
  | String c s' =>
      if bool_decide (c = CR) then
        String LF (match s' with
                   | String c' s'' =>
                       if bool_decide (c' = LF) then universal_newlines s''
                       else universal_newlines s'
                   | EmptyString => EmptyString
                   end)
      else String c (universal_newlines s')
  end.

(** The rows as the reader of [load_feedback] receives them. *)
Definition text_mode (rows : list (list string)) : list (list string) :=
  (fun row : list string => universal_newlines <$> row) <$> rows.

(** One row of [csv.DictReader]: the fields paired with the header,
    surplus fields under the key [None], missing fields as [None]. *)
Definition reader_row (fieldnames row : list string) : pydict :=
  let d := dict_of (zip (PStr <$> fieldnames) (PStr <$> row)) in
  let lf := length fieldnames in
  let lr := length row in
  if (lf <? lr)%nat then dict_set PNone (PList (drop lf row)) d
  else if (lr <? lf)%nat then
    fold_left (fun d key => dict_set (PStr key) PNone d) (drop lr fieldnames) d
  else d.

(** [csv.DictReader(f)]: the first row is the header, blank rows are
    passed over. *)
Definition DictReader (rows : list (list string)) : list pydict :=
  match rows with
  | [] => []
  | fieldnames :: rest =>
      reader_row fieldnames <$> filter (fun row => row <> []) rest
  end.

(** The loop [for row in reader: feedback[row["link"]] = row]. *)
Fixpoint load_rows (feedback : history) (rows : list pydict) : result history :=
  match rows with
  | [] => mret feedback
  | row :: rows' =>
      k ← getitem row "link";
      load_rows (dict_set k row feedback) rows'
  end.

Definition load_feedback (file : storage) : result history :=
  match file with
  | None => mret []
  | Some rows => load_rows [] (DictReader (text_mode rows))
  end.

(** [str(n)] for an integer. *)
Definition str_int (n : Z) : string := NilZero.string_of_int (Z.to_int n).

(** The fields [writer.writerow] emits for the dictionary built in
    [save_feedback], in the order of the field names. *)
Definition feedback_row (timestamp : string) (v : video) (feedback : string)
    (summary : option string) : list string :=
  [ timestamp;
    keyword v;
    title v;
    link v;
    channel v;
    str_int (duration v);
    feedback;
    default EmptyString summary;
    default EmptyString (upload_date v);
    language v ].

(** [timestamp] is the value of [datetime.now().isoformat()]. *)
Definition save_feedback (timestamp : string) (v : video) (feedback : string)
    (summary : option string) (file : storage) : storage :=
  match file with
  | None => Some [FIELDNAMES; feedback_row timestamp v feedback summary]
  | Some rows => Some (rows ++ [feedback_row timestamp v feedback summary])
  end.

(** ** The weighted draw

    [random.choices(population, weights=weights, k=1)[0]]: the library
    accumulates the weights, multiplies their total by [random()] and
    bisects the running sums, never looking past the last index.  The
    running sums are integers, so the draw only depends on the integer
    part [r] of the product. *)

Fixpoint accumulate (acc : Z) (weights : list Z) : list Z :=
  match weights with
  | [] => []
  | w :: weights' => (acc + w) :: accumulate (acc + w) weights'
  end.

(** [bisect(a, r, 0, hi)] on a sorted list: the number of entries, among
    the first [hi], that are not above [r]. *)
Fixpoint bisect (a : list Z) (r : Z) (hi : nat) : nat :=
  match hi, a with
  | S hi', c :: a' => if r <? c then O else S (bisect a' r hi')
  | _, _ => O
  end.

Definition random_choices {A : Type} (population : list A) (weights : list Z)
    (r : Z) : result A :=
  let n := length population in
  let cum_weights := accumulate 0 weights in
  if bool_decide (length cum_weights = n) then
    match last cum_weights with
    | None => Raise IndexError
    | Some total =>
        if total <=? 0 then Raise ValueError
        else match population !! bisect cum_weights r (n - 1) with
             | Some x => Ok x
             | None => Raise IndexError
             end
    end
  else Raise ValueError.

(** ** [pick_video] *)

Section pick_video.
Variable strptime_Ymd : string -> option Z.

(** The loop that fills [weights]; [clock i] is what [datetime.now()]
    reads while the candidate at position [i] is weighed. *)
Fixpoint weights_loop (clock : nat -> datetime) (i : nat)
    (candidates : list video) (feedback_memory : history) : result (list Z) :=
  match candidates with
  | [] => mret []
  | v :: candidates' =>
      base ← weight strptime_Ymd (clock i) v feedback_memory;
      weights ← weights_loop clock (S i) candidates' feedback_memory;
      mret (base :: weights)
  end.

(** The candidates whose link is not a key of the feedback memory. *)
Definition unrated (videos : list video) (feedback_memory : history)
  : list video :=
  filter (fun v => dict_in (PStr (link v)) feedback_memory = false) videos.

Definition pick_video (clock : nat -> datetime) (r : Z)
    (videos : list video) (feedback_memory : history)
  : result (option video) :=
  let candidates := unrated videos feedback_memory in
  if bool_decide (candidates = []) then mret None
  else
    weights ← weights_loop clock 0 candidates feedback_memory;
    let candidates' :=
      (filter (fun vw : video * Z => 0 < vw.2) (zip candidates weights)).*1 in
    let weights' := filter (fun w => 0 < w) weights in
    if bool_decide (candidates' = []) then mret None
    else
      video ← random_choices candidates' weights' r;
      mret (Some video).
End pick_video.

(** ** [interactive_loop]

    The state the loop owns: the feedback memory and the feedback file.
    [videos] is the list the caller passes in; the loop hands the same
    list to [pick_video] every time round. *)

Record session : Type := mkSession {
  memory : history;
  file : storage
}.

(** What one turn of the loop reads from its surroundings: the clock,
    the random draw, the summary that is shown (lines 220 to 222), the
    line the user types and the time stamp of the saved row. *)
Record reading : Type := mkReading {
  now_at : nat -> datetime;
  draw : Z;
  shown_summary : string;
  typed : string;
  stamp : string
}.

Inductive turn : Type :=
  | Continue (s : session)
  | Break (s : session).

Inductive status : Type := ACTIVE | TERMINATED.

Definition RATINGS : list string := ["never"; "maybe"; "definitely"].

Section interactive_loop.
Variable strptime_Ymd : string -> option Z.
(** [s.strip().lower()] *)
Variable strip_lower : string -> string.

(** The body of [while True]. *)
Definition loop_body (videos : list video) (s : session) (e : reading)
  : result turn :=
  picked ← pick_video strptime_Ymd (now_at e) (draw e) videos (memory s);
  match picked with
  | None => mret (Break s)
  | Some v =>
      let feedback := strip_lower (typed e) in
      if bool_decide (feedback = "quit") then mret (Break s)
      else if bool_decide (feedback ∈ RATINGS) then
        let file' :=
          save_feedback (stamp e) v feedback (Some (shown_summary e)) (file s) in
        let memory' :=
          dict_set (PStr (link v))
            (dict_or (video_dict v) [(PStr "feedback", PStr feedback)])
            (memory s) in
        mret (Continue {| memory := memory'; file := file' |})
      else mret (Continue s)
  end.

(** The loop, run on the readings of its successive turns; it is still
    [ACTIVE] when the readings run out before a [break]. *)
Fixpoint run_loop (videos : list video) (s : session) (es : list reading)
  : result (status * session) :=
  match es with
  | [] => mret (ACTIVE, s)
  | e :: es' =>
      t ← loop_body videos s e;
      match t with
      | Continue s' => run_loop videos s' es'
      | Break s' => mret (TERMINATED, s')
      end
  end.

Definition interactive_loop (videos : list video) (f : storage)
    (es : list reading) : result (status * session) :=
  feedback_memory ← load_feedback f;
  run_loop videos {| memory := feedback_memory; file := f |} es.
End interactive_loop.

(** ** [pick_video] on objects

    The lists and the dictionary of the script are objects that the
    caller shares with [pick_video].  Here they live in a store; a list
    comprehension allocates a new list, [weights.append] updates a list
    in place, and an assignment to a local name only rebinds the name. *)

Inductive obj : Type :=
  | OVideos (vs : list video)
  | OInts (ws : list Z)
  | ODict (d : history).

Abbreviation heap := (gmap nat obj).

(** A statement: it runs on a store and leaves a store, also when it
    raises. *)
Definition prog (A : Type) : Type := heap -> result A * heap.

#[global] Instance prog_ret : MRet prog := fun A a h => (Ok a, h).
#[global] Instance prog_bind : MBind prog := fun A B f m h =>
  match m h with
  | (Ok a, h') => f a h'
  | (Raise e, h') => (Raise e, h')
  end.

Definition lift {A : Type} (x : result A) : prog A := fun h => (x, h).

Definition new (o : obj) : prog nat := fun h =>
  let l := fresh (dom h) in (Ok l, <[l := o]> h).

Definition get_videos (l : nat) : prog (list video) := fun h =>
  match h !! l with
  | Some (OVideos vs) => (Ok vs, h)
  | _ => (Raise TypeError, h)
  end.

Definition get_ints (l : nat) : prog (list Z) := fun h =>
  match h !! l with
  | Some (OInts ws) => (Ok ws, h)
  | _ => (Raise TypeError, h)
  end.

Definition get_dict (l : nat) : prog history := fun h =>
  match h !! l with
  | Some (ODict d) => (Ok d, h)
  | _ => (Raise TypeError, h)
  end.

(** [l.append(w)] *)
Definition append (l : nat) (w : Z) : prog unit := fun h =>
  match h !! l with
  | Some (OInts ws) => (Ok tt, <[l := OInts (ws ++ [w])]> h)
  | _ => (Raise TypeError, h)
  end.

Section pick_video_obj.
Variable strptime_Ymd : string -> option Z.

Fixpoint weights_loop_obj (clock : nat -> datetime) (i : nat)
    (vs : list video) (feedback_memory weights : nat) : prog unit :=
  match vs with
  | [] => mret tt
  | v :: vs' =>
      fm ← get_dict feedback_memory;
      base ← lift (weight strptime_Ymd (clock i) v fm);
      _ ← append weights base;
      weights_loop_obj clock (S i) vs' feedback_memory weights
  end.

(** [videos] and [feedback_memory] are the addresses of the caller's
    list and dictionary. *)
Definition pick_video_obj (clock : nat -> datetime) (r : Z)
    (videos feedback_memory : nat) : prog (option video) :=
  vs ← get_videos videos;
  fm ← get_dict feedback_memory;
  candidates ←
    new (OVideos (filter (fun v => dict_in (PStr (link v)) fm = false) vs));
  cs ← get_videos candidates;
  if bool_decide (cs = []) then mret None
  else
    weights ← new (OInts []);
    _ ← weights_loop_obj clock 0 cs feedback_memory weights;
    ws ← get_ints weights;
    candidates' ←
      new (OVideos (filter (fun vw : video * Z => 0 < vw.2) (zip cs ws)).*1);
    weights' ← new (OInts (filter (fun w => 0 < w) ws));
    cs' ← get_videos candidates';
    if bool_decide (cs' = []) then mret None
    else
      ws' ← get_ints weights';
      video ← lift (random_choices cs' ws' r);
      mret (Some video).
End pick_video_obj.

(** ** [summarize_text]

    A Python string is the list of its code points: [len] and slices
    count code points. *)

Abbreviation text := (list N).

Definition U_LF : N := 10.
Definition U_SPACE : N := 32.
Definition U_DOT : N := 46.
Definition U_COLON : N := 58.

(** [text.replace("\n", " ")] *)
Definition replace_newlines (s : text) : text :=
  (fun c => if (c =? U_LF)%N then U_SPACE else c) <$> s.

(** [s.split(". ")]: the pieces between the successive occurrences of a
    full stop followed by a space, found from the left. *)
Fixpoint split_sentences (s : text) : list text :=
  match s with
  | [] => [[]]
  | c :: s' =>
      match s' with
      | c' :: s'' =>
          if ((c =? U_DOT) && (c' =? U_SPACE))%N then [] :: split_sentences s''
          else match split_sentences s' with
               | p :: ps => (c :: p) :: ps
               | [] => [[c]]
               end
      | [] => [[c]]
      end
  end.

(** [sep.join(parts)] *)
Fixpoint join (sep : text) (parts : list text) : text :=
  match parts with
  | [] => []
  | p :: ps =>
      match ps with
      | [] => p
      | _ :: _ => p ++ sep ++ join sep ps
      end
  end.

Definition ELLIPSIS : text := [U_DOT; U_DOT; U_DOT].

(** [max_len] is a length; the script only ever uses its default. *)
Definition summarize_text (s : text) (max_len : nat) : text :=
  let sentences := split_sentences (replace_newlines s) in
  let sentences :=
    if (4 <? length sentences)%nat then take 4 sentences else sentences in
  let summary := join [U_DOT; U_SPACE] sentences in
  take max_len summary
  ++ (if (max_len <? length summary)%nat then ELLIPSIS else []).

Definition MAX_LEN : nat := 220.

(** [get_transcript_summary]: [transcript] is the list of the [text]
    entries the transcript service returns, or [None] when the service
    is not installed or anything in the [try] raises. *)
Definition get_transcript_summary (transcript : option (list text))
  : option text :=
  match transcript with
  | None => None
  | Some lines => Some (summarize_text (join [U_SPACE] (take 40 lines)) MAX_LEN)
  end.

(** The summary of lines 220 to 222:
    [get_transcript_summary(...) or summarize_text(description or title)]. *)
Definition shown (transcript : option (list text)) (description title : text)
  : text :=
  match get_transcript_summary transcript with
  | Some (c :: s) => c :: s
  | _ =>
      summarize_text
        (match description with [] => title | _ :: _ => description end)
        MAX_LEN
  end.

(** ** The duration of a search result ([fetch_videos_ytsp]) *)

Definition MIN_DURATION : Z := 60.

(** [s.split(":")] *)
Fixpoint split_colon (s : text) : list text :=
  match s with
  | [] => [[]]
  | c :: s' =>
      if (c =? U_COLON)%N then [] :: split_colon s'
      else match split_colon s' with
           | p :: ps => (c :: p) :: ps
           | [] => [[c]]
           end
  end.

Section duration.
(** [int(s)]; [None] when the library raises. *)
Variable py_int : text -> option Z.

(** [list(map(int, parts))]; [None] at the first part that raises. *)
Fixpoint map_int (parts : list text) : option (list Z) :=
  match parts with
  | [] => Some []
  | p :: parts' =>
      match py_int p with
      | Some x =>
          match map_int parts' with
          | Some xs => Some (x :: xs)
          | None => None
          end
      | None => None
      end
  end.

(** [sum(x * 60**i for i, x in enumerate(reversed(parts)))] *)
Definition seconds (parts : list Z) : Z :=
  fold_left Z.add (imap (fun i x => x * 60 ^ Z.of_nat i) (reverse parts)) 0.

(** The [try] of lines 115 to 119: any exception gives 0. *)
Definition parse_duration (duration_str : text) : Z :=
  match map_int (split_colon duration_str) with
  | Some parts => seconds parts
  | None => 0
  end.

(** [if duration < MIN_DURATION: continue] *)
Definition keeps_duration (duration_str : text) : bool :=
  negb (parse_duration duration_str <? MIN_DURATION).
End duration.

(** ** The simpler script variant

    The second script of the file: candidates have six keys, there is no
    recency boost, the feedback file has seven columns and the ratings
    are typed as [n], [m], [y] and [q].  [load_feedback] is the same
    function as above. *)

Module Legacy.

Record video : Type := mkVideo {
  keyword : string;
  title : string;
  link : string;
  channel : string;
  description : string;
  duration : Z
}.

Definition video_dict (v : video) : pydict :=
  [ (PStr "keyword", PStr (keyword v));
    (PStr "title", PStr (title v));
    (PStr "link", PStr (link v));
    (PStr "channel", PStr (channel v));
    (PStr "description", PStr (description v));
    (PStr "duration", PInt (duration v)) ].

Definition FIELDNAMES : list string :=
  [ "timestamp"; "keyword"; "title"; "link"; "channel"; "duration";
    "feedback" ].

Definition feedback_row (timestamp : string) (v : video) (feedback : string)
  : list string :=
  [ timestamp; keyword v; title v; link v; channel v;
    str_int (duration v); feedback ].

Definition save_feedback (timestamp : string) (v : video) (feedback : string)
    (f : storage) : storage :=
  match f with
  | None => Some [FIELDNAMES; feedback_row timestamp v feedback]
  | Some rows => Some (rows ++ [feedback_row timestamp v feedback])
  end.

Definition keyword_step (v : video) (base : Z) (fb : pydict) : result Z :=
  kw ← getitem fb "keyword";
  if py_eq kw (PStr (keyword v)) then
    f ← getitem fb "feedback";
    if py_eq f (PStr "definitely") then mret (base + 3)
    else if py_eq f (PStr "maybe") then mret (base + 1)
    else if py_eq f (PStr "never") then mret 0
    else mret base
  else mret base.

Fixpoint keyword_loop (v : video) (base : Z) (fbs : list pydict) : result Z :=
  match fbs with
  | [] => mret base
  | fb :: fbs' => base' ← keyword_step v base fb; keyword_loop v base' fbs'
  end.

Fixpoint weights_loop (candidates : list video) (feedback_memory : history)
  : result (list Z) :=
  match candidates with
  | [] => mret []
  | v :: candidates' =>
      base ← keyword_loop v 1 (dict_values feedback_memory);
      weights ← weights_loop candidates' feedback_memory;
      mret (base :: weights)
  end.

Definition unrated (videos : list video) (feedback_memory : history)
  : list video :=
  filter (fun v => dict_in (PStr (link v)) feedback_memory = false) videos.

Definition pick_video (r : Z) (videos : list video) (feedback_memory : history)
  : result (option video) :=
  let candidates := unrated videos feedback_memory in
  if bool_decide (candidates = []) then mret None
  else
    weights ← weights_loop candidates feedback_memory;
    let candidates' :=
      (filter (fun vw : video * Z => 0 < vw.2) (zip candidates weights)).*1 in
    let weights' := filter (fun w => 0 < w) weights in
    if bool_decide (candidates' = []) then mret None
    else
      video ← random_choices candidates' weights' r;
      mret (Some video).

(** What one turn reads: the draw, the line typed, the time stamp. *)
Record reading : Type := mkReading {
  draw : Z;
  typed : string;
  stamp : string
}.

Definition RATINGS : list string := ["n"; "m"; "y"].

Section interactive_loop.
(** [s.strip().lower()] *)
Variable strip_lower : string -> string.

Definition loop_body (videos : list video) (s : session) (e : reading)
  : result turn :=
  picked ← pick_video (draw e) videos (memory s);
  match picked with
  | None => mret (Break s)
  | Some v =>
      let feedback := strip_lower (typed e) in
      if bool_decide (feedback = "q") then mret (Break s)
      else if bool_decide (feedback ∈ RATINGS) then
        let file' := save_feedback (stamp e) v feedback (file s) in
        let memory' :=
          dict_set (PStr (link v))
            (dict_or (video_dict v) [(PStr "feedback", PStr feedback)])
            (memory s) in
        mret (Continue {| memory := memory'; file := file' |})
      else mret (Continue s)
  end.

Fixpoint run_loop (videos : list video) (s : session) (es : list reading)
  : result (status * session) :=
  match es with
  | [] => mret (ACTIVE, s)
  | e :: es' =>
      t ← loop_body videos s e;
      match t with
      | Continue s' => run_loop videos s' es'
      | Break s' => mret (TERMINATED, s')
      end
  end.

Definition interactive_loop (videos : list video) (f : storage)
    (es : list reading) : result (status * session) :=
  feedback_memory ← load_feedback f;
  run_loop videos {| memory := feedback_memory; file := f |} es.
End interactive_loop.

End Legacy.

(** ** Sample data

    A calendar for the examples: the ordinal of a date as Python's
    [date.toordinal] computes it, and the parse of a date written with
    eight ASCII digits, on which it agrees with [strptime]. *)

Definition is_leap (y : Z) : bool :=
  (y mod 4 =? 0) && (negb (y mod 100 =? 0) || (y mod 400 =? 0)).

Definition days_in_month (y m : Z) : Z :=
  if m =? 2 then (if is_leap y then 29 else 28)
  else if (m =? 4) || (m =? 6) || (m =? 9) || (m =? 11) then 30
  else 31.

Fixpoint days_before_month (y : Z) (m : nat) : Z :=
  match m with
  | O => 0
  | S m' => days_before_month y m' + days_in_month y (Z.of_nat m)
  end.

Definition ymd_ordinal (y m d : Z) : option Z :=
  if (1 <=? y) && (y <=? 9999) && (1 <=? m) && (m <=? 12)
     && (1 <=? d) && (d <=? days_in_month y m)
  then Some ((y - 1) * 365 + (y - 1) / 4 - (y - 1) / 100 + (y - 1) / 400
             + days_before_month y (Z.to_nat (m - 1)) + d)
  else None.

Definition digit (c : ascii) : option Z :=
  let n := Z.of_N (N_of_ascii c) in
  if (48 <=? n) && (n <=? 57) then Some (n - 48) else None.

Fixpoint digits (acc : Z) (cs : list ascii) : option Z :=
  match cs with
  | [] => Some acc
  | c :: cs' =>
      match digit c with
      | Some n => digits (10 * acc + n) cs'
      | None => None
      end
  end.

Definition strptime_8digits (s : string) : option Z :=
  let cs := list_ascii_of_string s in
  if bool_decide (length cs = 8%nat) then
    match digits 0 (take 4 cs), digits 0 (take 2 (drop 4 cs)),
          digits 0 (drop 6 cs) with
    | Some y, Some m, Some d => ymd_ordinal y m d
    | _, _, _ => None
    end
  else None.

(** Noon on 3 November 2026, at every position. *)
Definition noon : nat -> datetime :=
  fun _ => {| ordinal := 739923; micros := 43200000000 |}.

Definition video_a : video :=
  {| keyword := "x"; title := "A"; link := "u1"; video_id := "a";
     channel := "c"; description := "Intro"; duration := 120;
     upload_date := None; language := "en" |}.

(** Uploaded two weeks before [noon]. *)
Definition video_b : video :=
  {| keyword := "x"; title := "B"; link := "u2"; video_id := "b";
     channel := "c"; description := "Intro"; duration := 300;
     upload_date := Some "20261020"; language := "en" |}.

(** A candidate on keyword [x] uploaded on the day of [noon]. *)
Definition video_today : video :=
  {| keyword := "x"; title := "N"; link := "u3"; video_id := "n";
     channel := "c"; description := "Intro"; duration := 90;
     upload_date := Some "20261103"; language := "en" |}.

(** The entry [interactive_loop] stores for a rated video. *)
Definition rated (v : video) (feedback : string) : pyval * pydict :=
  (PStr (link v), dict_or (video_dict v) [(PStr "feedback", PStr feedback)]).

Definition history_never : history := [rated video_a "never"].

Definition history_never_definitely : history :=
  [rated video_a "never"; rated video_b "definitely"].

Definition lower_ascii (c : ascii) : ascii :=
  let n := N_of_ascii c in
  if ((65 <=? n) && (n <=? 90))%N then ascii_of_N (n + 32) else c.

(** Lower-casing of the ASCII letters; the examples type no blanks. *)
Definition lower_only (s : string) : string :=
  string_of_list_ascii (lower_ascii <$> list_ascii_of_string s).

(** ** Vocabulary of the statements *)

(** [fb] is a record on keyword [kw] with rating [rating]. *)
Definition rates (fb : pydict) (kw rating : string) : Prop :=
  dict_get (PStr "keyword") fb = Some (PStr kw)
  /\ dict_get (PStr "feedback") fb = Some (PStr rating).

(** [fb] has the two keys the keyword loop reads. *)
Definition readable (fb : pydict) : Prop :=
  is_Some (dict_get (PStr "keyword") fb)
  /\ is_Some (dict_get (PStr "feedback") fb).





#[global] Instance rates_dec fb kw rating : Decision (rates fb kw rating).
Proof. unfold rates. apply _. Defined.

(** The number of records on keyword [kw] with rating [rating]. *)
Definition count_rating (kw rating : string) (fbs : list pydict) : Z :=
  Z.of_nat (length (filter (fun fb => rates fb kw rating) fbs)).



Definition Z_sum (l : list Z) : Z := foldr Z.add 0 l.

(** A feedback file in which the link [u1] is rated twice, and what
    [load_feedback] returns for it. *)
Definition twice_rated_rows : list (list string) :=
  [FIELDNAMES; ["t1"; "y"; "A"; "u1"; "c"]; ["t2"; "x"; "A"; "u1"]].

Definition twice_rated_history : history :=
  [(PStr "u1", reader_row FIELDNAMES ["t2"; "x"; "A"; "u1"])].



(** [int] on a text of ASCII digits, for the examples. *)
Definition int_of_digits (s : text) : option Z :=
  match s with
  | [] => None
  | _ :: _ =>
      foldl (fun acc c =>
               match acc with
               | Some n =>
                   if ((48 <=? c) && (c <=? 57))%N
                   then Some (10 * n + (Z.of_N c - 48))
                   else None
               | None => None
               end) (Some 0) s
  end.

(** A history entry that changes no weight: it has a keyword, and its
    rating is none of the three the keyword loop knows. *)
Definition inert (fb : pydict) : Prop :=
  is_Some (dict_get (PStr "keyword") fb)
  /\ exists f, dict_get (PStr "feedback") fb = Some f
               /\ f <> PStr "definitely" /\ f <> PStr "maybe"
               /\ f <> PStr "never".

Definition clip_a : Legacy.video :=
  {| Legacy.keyword := "x"; Legacy.title := "A"; Legacy.link := "u1";
     Legacy.channel := "c"; Legacy.description := "Intro";
     Legacy.duration := 120 |}.

Definition clip_b : Legacy.video :=
  {| Legacy.keyword := "x"; Legacy.title := "B"; Legacy.link := "u2";
     Legacy.channel := "c"; Legacy.description := "Intro";
     Legacy.duration := 300 |}.

(** A turn of the simpler script at which the user types [y]. *)
Definition turn_y : Legacy.reading :=
  {| Legacy.draw := 0; Legacy.typed := "Y";
     Legacy.stamp := "2026-11-03T12:00:00" |}.

(** A turn at which the user types [quit]. *)
Definition turn_quit : reading :=
  {| now_at := noon; draw := 0; shown_summary := "A"; typed := "QUIT";
     stamp := "2026-11-03T12:00:00" |}.

(** A history with an entry that has no keyword: what [load_feedback]
    returns for a file whose header only names the link. *)
Definition history_without_keyword : history :=
  [(PStr "u9", [(PStr "link", PStr "u9")])].

(** [hp'] holds every object of [hp], unchanged. *)
Definition preserves (hp hp' : gmap nat obj) : Prop :=
  forall l, is_Some (hp !! l) -> hp' !! l = hp !! l.

(** A store of the caller: its list of candidates and its feedback
    memory. *)
Definition caller_heap : gmap nat obj :=
  <[1%nat := ODict history_never]>
    (<[0%nat := OVideos [video_a; video_b; video_today]]> ∅).

(** Two turns of a session: the user types a rating at each. *)
Definition turn_never : reading :=
  {| now_at := noon; draw := 0; shown_summary := "A"; typed := "Never";
     stamp := "2026-11-03T12:00:00" |}.

Definition turn_definitely : reading :=
  {| now_at := noon; draw := 0; shown_summary := "B"; typed := "definitely";
     stamp := "2026-11-03T12:01:00" |}.

(** A turn at which the user types something else. *)
Definition turn_later : reading :=
  {| now_at := noon; draw := 0; shown_summary := "A"; typed := "later";
     stamp := "2026-11-03T12:00:00" |}.

Definition fresh_session : session := {| memory := []; file := None |}.

(** * Properties *)

Ltac unfold_result :=
  unfold mbind, mret, result_bind, result_ret in *; cbn beta iota in *.

(** ** Dictionaries *)

Section dict_facts.
Context {K V : Type} `{EqDecision K}.
Implicit Types (k : K) (v : V) (d : list (K * V)).

Lemma dict_get_set_eq k v d : dict_get k (dict_set k v d) = Some v.
Proof.
  induction d as [|[k' v'] d IH]; simpl.
  - by rewrite decide_True.
  - destruct (decide (k = k')) as [->|Hne]; simpl.
    + by rewrite decide_True.
    + by rewrite decide_False.
Qed.

Lemma dict_get_set_ne k k' v d :
  k <> k' -> dict_get k (dict_set k' v d) = dict_get k d.
Proof.
  intros Hne. induction d as [|[k'' v''] d IH]; simpl.
  - by rewrite decide_False.
  - destruct (decide (k' = k'')) as [->|Hne']; simpl.
    + by rewrite !decide_False.
    + destruct (decide (k = k'')); done.
Qed.

Lemma dict_set_absent k v d :
  dict_get k d = None -> dict_set k v d = d ++ [(k, v)].
Proof.
  induction d as [|[k' v'] d IH]; simpl; [done|].
  destruct (decide (k = k')); [done|]. intros Hd. by rewrite IH.
Qed.

Lemma dict_in_set k k' v d :
  dict_in k (dict_set k' v d) = true <-> k = k' \/ dict_in k d = true.
Proof.
  unfold dict_in. rewrite !bool_decide_eq_true.
  destruct (decide (k = k')) as [->|Hne].
  - rewrite dict_get_set_eq. split; eauto.
  - rewrite dict_get_set_ne by done. split; [eauto|]. by intros [?|?].
Qed.

Lemma dict_in_false k d : dict_in k d = false <-> dict_get k d = None.
Proof.
  unfold dict_in. rewrite bool_decide_eq_false, <- eq_None_not_Some. done.
Qed.

Lemma dict_get_elem k v d : dict_get k d = Some v -> (k, v) ∈ d.
Proof.
  induction d as [|[k' v'] d IH]; simpl; [done|].
  destruct (decide (k = k')) as [->|]; intros Hd.
  - injection Hd as ->. left.
  - right. auto.
Qed.
End dict_facts.

(** ** The keyword loop *)

Lemma py_eq_true a b : py_eq a b = true <-> a = b.
Proof. unfold py_eq. apply bool_decide_eq_true. Qed.

Lemma getitem_Some fb k x : dict_get (PStr k) fb = Some x -> getitem fb k = Ok x.
Proof. unfold getitem. by intros ->. Qed.

Lemma keyword_loop_app v base fbs1 fbs2 :
  keyword_loop v base (fbs1 ++ fbs2)
  = (base' ← keyword_loop v base fbs1; keyword_loop v base' fbs2).
Proof.
  revert base. induction fbs1 as [|fb fbs1 IH]; intros base; simpl; [done|].
  unfold_result. destruct (keyword_step v base fb); [apply IH|done].
Qed.

Lemma keyword_step_never v base fb :
  rates fb (keyword v) "never" -> keyword_step v base fb = Ok 0.
Proof.
  intros [Hk Hf]. unfold keyword_step.
  rewrite (getitem_Some _ _ _ Hk), (getitem_Some _ _ _ Hf).
  unfold_result. unfold py_eq. rewrite bool_decide_eq_true_2 by done. done.
Qed.

Lemma keyword_step_definitely v base fb :
  rates fb (keyword v) "definitely" -> keyword_step v base fb = Ok (base + 3).
Proof.
  intros [Hk Hf]. unfold keyword_step.
  rewrite (getitem_Some _ _ _ Hk), (getitem_Some _ _ _ Hf).
  unfold_result. unfold py_eq. rewrite bool_decide_eq_true_2 by done. done.
Qed.

Lemma keyword_step_readable v base fb :
  readable fb -> exists base', keyword_step v base fb = Ok base'.
Proof.
  intros [[k Hk] [f Hf]]. unfold keyword_step.
  rewrite (getitem_Some _ _ _ Hk), (getitem_Some _ _ _ Hf). unfold_result.
  repeat case_match; eauto.
Qed.

Lemma keyword_step_nonneg v base fb base' :
  0 <= base -> keyword_step v base fb = Ok base' -> 0 <= base'.
Proof.
  unfold keyword_step. unfold_result. intros Hb Hs.
  repeat case_match; simplify_eq; lia.
Qed.

(** A step is monotone in the running weight, and whether it raises does
    not depend on the running weight. *)
Lemma keyword_step_mono v b1 b2 fb b1' :
  b1 <= b2 -> keyword_step v b1 fb = Ok b1' ->
  exists b2', keyword_step v b2 fb = Ok b2' /\ b1' <= b2'.
Proof.
  unfold keyword_step. unfold_result. intros Hb Hs.
  repeat case_match; simplify_eq; eexists; (split; [reflexivity|lia]).
Qed.

Lemma keyword_loop_mono v fbs b1 b2 b1' :
  b1 <= b2 -> keyword_loop v b1 fbs = Ok b1' ->
  exists b2', keyword_loop v b2 fbs = Ok b2' /\ b1' <= b2'.
Proof.
  revert b1 b2. induction fbs as [|fb fbs IH]; intros b1 b2 Hb; simpl.
  - unfold_result. intros [= <-]. eauto.
  - unfold_result. destruct (keyword_step v b1 fb) as [c1|] eqn:H1; [|done].
    destruct (keyword_step_mono _ _ _ _ _ Hb H1) as (c2 & -> & Hc). eauto.
Qed.

Lemma keyword_loop_nonneg v fbs base base' :
  0 <= base -> keyword_loop v base fbs = Ok base' -> 0 <= base'.
Proof.
  revert base. induction fbs as [|fb fbs IH]; intros base Hb; simpl.
  - unfold_result. intros [= <-]. done.
  - unfold_result. destruct (keyword_step v base fb) as [c|] eqn:Hs; [|done].
    apply IH. eapply keyword_step_nonneg; eauto.
Qed.

Lemma keyword_loop_readable v fbs base :
  Forall readable fbs -> exists base', keyword_loop v base fbs = Ok base'.
Proof.
  intros Hr. revert base. induction Hr as [|fb fbs Hfb _ IH]; intros base; simpl.
  - unfold_result. eauto.
  - destruct (keyword_step_readable v base fb Hfb) as [c ->]. apply IH.
Qed.

Lemma keyword_step_no_boost v fb :
  readable fb ->
  ~ rates fb (keyword v) "definitely" -> ~ rates fb (keyword v) "maybe" ->
  keyword_step v 0 fb = Ok 0.
Proof.
  intros [[kw Hk] [f Hf]] Hd Hm. unfold keyword_step.
  rewrite (getitem_Some _ _ _ Hk), (getitem_Some _ _ _ Hf). unfold_result.
  destruct (py_eq kw _) eqn:Ekw; [|done]. apply py_eq_true in Ekw as ->.
  destruct (py_eq f (PStr "definitely")) eqn:E1.
  { apply py_eq_true in E1 as ->. destruct Hd. by split. }
  destruct (py_eq f (PStr "maybe")) eqn:E2.
  { apply py_eq_true in E2 as ->. destruct Hm. by split. }
  by destruct (py_eq f (PStr "never")).
Qed.

Lemma recent_spec strptime_Ymd now v :
  0 <= micros now ->
  recent strptime_Ymd now v = true
  <-> exists s d, upload_date v = Some s /\ s <> EmptyString
                  /\ strptime_Ymd s = Some d
                  /\ 180 < ordinal now /\ ordinal now - d < 180.
Proof.
  intros Hm. unfold recent, minus_days, datetime_gt. split.
  - destruct (upload_date v) as [s|]; [|done].
    case_bool_decide; [done|].
    destruct (strptime_Ymd s) as [d|] eqn:Hp; [|done].
    destruct (Z.ltb_spec (ordinal now - 180) 1); [done|]. simpl.
    intros Hgt. exists s, d.
    split; [done|]. split; [done|]. split; [done|]. split; [lia|].
    apply orb_true_iff in Hgt as [Hgt|Hgt].
    + apply Z.ltb_lt in Hgt. lia.
    + apply andb_true_iff in Hgt as [_ Hgt]. apply Z.ltb_lt in Hgt. lia.
  - intros (s & d & -> & Hs & -> & Hn & Hd).
    rewrite bool_decide_eq_false_2 by done.
    destruct (Z.ltb_spec (ordinal now - 180) 1); [lia|]. simpl.
    apply orb_true_iff. left. apply Z.ltb_lt. lia.
Qed.

(** ** Claims about the weight *)

(** C1: the weight of a candidate is the result of the keyword fold plus
    2 when the candidate is recent and plus 0 otherwise, the bonus being
    added after the fold whatever its result; a fold result of 0 with a
    recent upload date gives the weight 2.  A candidate is recent when
    its upload date parses to a day fewer than 180 days before the day
    of [now]. *)
Theorem weight_is_fold_plus_recency (strptime_Ymd : string -> option Z)
    (now : datetime) (v : video) (h : history) :
  weight strptime_Ymd now v h
  = (fold_result ← keyword_fold v h;
     mret (fold_result + (if recent strptime_Ymd now v then 2 else 0)))
  /\ (keyword_fold v h = Ok 0 -> recent strptime_Ymd now v = true ->
      weight strptime_Ymd now v h = Ok 2)
  /\ (0 <= micros now ->
      recent strptime_Ymd now v = true
      <-> exists s d, upload_date v = Some s /\ s <> EmptyString
                      /\ strptime_Ymd s = Some d
                      /\ 180 < ordinal now /\ ordinal now - d < 180).
Proof.
  split; [|split].
  - unfold weight. unfold_result. destruct (keyword_fold v h); [|done].
    destruct (recent strptime_Ymd now v); f_equal; lia.
  - intros Hf Hr. unfold weight. rewrite Hf. unfold_result. by rewrite Hr.
  - apply recent_spec.
Qed.

Lemma weight_is_fold_plus_recency_witness :
  weight strptime_8digits (noon 0%nat) video_today history_never = Ok 2
  /\ (recent strptime_8digits (noon 0%nat) video_today = true
      <-> exists s d, upload_date video_today = Some s /\ s <> EmptyString
                      /\ strptime_8digits s = Some d
                      /\ 180 < ordinal (noon 0%nat)
                      /\ ordinal (noon 0%nat) - d < 180).
Proof.
  pose proof (weight_is_fold_plus_recency strptime_8digits (noon 0%nat)
                video_today history_never) as (_ & H2 & H3).
  split.
  - apply H2; reflexivity.
  - apply H3. vm_compute. discriminate.
Defined.

(** C2, as stated, fails: after a [never] on the keyword, a [definitely]
    folded later raises the fold result to 3. *)
Lemma never_then_definitely_is_revived :
  (rated video_a "never").2 ∈ dict_values history_never_definitely
  /\ rates (rated video_a "never").2 (keyword video_today) "never"
  /\ keyword_fold video_today history_never_definitely = Ok 3.
Proof.
  split; [|split].
  - left.
  - split; reflexivity.
  - reflexivity.
Qed.

(** C2, amended: a [never] record on the candidate's keyword resets the
    running weight to 0 at its place in the fold, and the fold goes on
    from 0 over the records that come after it; the result is 0 when
    none of those is a [definitely] or a [maybe] on the keyword. *)
Theorem never_resets_running_weight (v : video) (h1 h2 : history)
    (k : pyval) (fb : pydict) (base1 : Z) :
  rates fb (keyword v) "never" ->
  keyword_fold v h1 = Ok base1 ->
  keyword_fold v (h1 ++ (k, fb) :: h2) = keyword_loop v 0 (dict_values h2)
  /\ (Forall readable (dict_values h2) ->
      Forall (fun fb' => ~ rates fb' (keyword v) "definitely"
                         /\ ~ rates fb' (keyword v) "maybe") (dict_values h2) ->
      keyword_fold v (h1 ++ (k, fb) :: h2) = Ok 0).
Proof.
  intros Hn H1.
  assert (keyword_fold v (h1 ++ (k, fb) :: h2)
          = keyword_loop v 0 (dict_values h2)) as Heq.
  { unfold keyword_fold, dict_values in *. rewrite fmap_app, keyword_loop_app.
    rewrite H1. unfold_result. simpl. rewrite (keyword_step_never _ _ _ Hn).
    done. }
  split; [done|]. rewrite Heq. clear Heq.
  induction (dict_values h2) as [|fb' fbs IH]; [done|].
  intros Hr Hb. inversion Hr; subst. inversion Hb as [|?? [Hd Hm]]; subst.
  simpl. rewrite keyword_step_no_boost by done. unfold_result. auto.
Qed.

Lemma never_resets_running_weight_witness :
  keyword_fold video_today (history_never ++ [rated video_b "never"]) = Ok 0.
Proof.
  apply (never_resets_running_weight video_today [] [rated video_b "never"]
           (rated video_a "never").1 (rated video_a "never").2 1).
  - split; reflexivity.
  - reflexivity.
  - repeat constructor; vm_compute; eauto.
  - repeat constructor; intros [_ H]; vm_compute in H; discriminate.
Defined.

(** C3: a [definitely] record on the candidate's keyword, inserted at
    any place of the history, never lowers the weight. *)
Theorem definitely_never_decreases (strptime_Ymd : string -> option Z)
    (now : datetime) (v : video) (h1 h2 : history) (k : pyval) (fb : pydict)
    (w : Z) :
  rates fb (keyword v) "definitely" ->
  weight strptime_Ymd now v (h1 ++ h2) = Ok w ->
  exists w', weight strptime_Ymd now v (h1 ++ (k, fb) :: h2) = Ok w' /\ w <= w'.
Proof.
  intros Hd. unfold weight, keyword_fold, dict_values.
  rewrite !fmap_app, fmap_cons, !keyword_loop_app. cbn [keyword_loop snd].
  unfold_result.
  destruct (keyword_loop v 1 h1.*2) as [b1|]; [|done].
  rewrite (keyword_step_definitely _ _ _ Hd).
  destruct (keyword_loop v b1 h2.*2) as [b2|] eqn:H2; [|done].
  intros [= <-].
  destruct (keyword_loop_mono v h2.*2 b1 (b1 + 3) b2) as (b2' & -> & Hle);
    [lia|done|].
  eexists; split; [reflexivity|]. destruct (recent strptime_Ymd now v); lia.
Qed.

Lemma definitely_never_decreases_witness :
  exists w', weight strptime_8digits (noon 0%nat) video_today
               (history_never ++ [rated video_b "definitely"]) = Ok w'
             /\ 2 <= w'.
Proof.
  apply (definitely_never_decreases strptime_8digits (noon 0%nat) video_today
           history_never [] (rated video_b "definitely").1
           (rated video_b "definitely").2 2).
  - split; reflexivity.
  - reflexivity.
Defined.

(** ** The weighted draw *)

Lemma accumulate_length acc ws : length (accumulate acc ws) = length ws.
Proof. revert acc. induction ws as [|w ws IH]; intros acc; simpl; auto. Qed.

Lemma accumulate_last acc ws :
  Forall (fun w => 0 < w) ws -> ws <> [] ->
  exists total, last (accumulate acc ws) = Some total /\ acc < total.
Proof.
  intros Hpos. revert acc.
  induction Hpos as [|w ws Hw Hpos IH]; intros acc Hne; [done|].
  cbn [accumulate]. rewrite last_cons. destruct ws as [|w' ws'].
  - simpl. eexists; split; [done|lia].
  - destruct (IH (acc + w)) as (total & -> & Hlt); [done|].
    eexists; split; [done|lia].
Qed.

Lemma bisect_le a r hi : (bisect a r hi <= hi)%nat.
Proof.
  revert a. induction hi as [|hi IH]; intros [|c a]; simpl; try lia.
  destruct (r <? c); [lia|]. specialize (IH a). lia.
Qed.

Lemma random_choices_elem {A : Type} (population : list A) weights r x :
  random_choices population weights r = Ok x -> x ∈ population.
Proof.
  unfold random_choices. case_bool_decide; [|done].
  destruct (last _); [|done]. destruct (_ <=? _); [done|].
  destruct (population !! _) eqn:Hl; [|done]. intros [= <-].
  by eapply list_elem_of_lookup_2.
Qed.

Lemma random_choices_total {A : Type} (population : list A) weights r :
  population <> [] -> length weights = length population ->
  Forall (fun w => 0 < w) weights ->
  exists x, random_choices population weights r = Ok x.
Proof.
  intros Hne Hlen Hpos. unfold random_choices.
  rewrite bool_decide_eq_true_2 by (by rewrite accumulate_length).
  destruct (accumulate_last 0 weights Hpos) as (total & -> & Hlt).
  { intros ->. by destruct population. }
  destruct (Z.leb_spec total 0); [lia|].
  destruct (lookup_lt_is_Some_2 population
              (bisect (accumulate 0 weights) r (length population - 1)))
    as [x ->]; [|eauto].
  pose proof (bisect_le (accumulate 0 weights) r (length population - 1)).
  destruct population; [done|]. simpl in *. lia.
Qed.

(** ** [pick_video] *)

Lemma filter_ext_elem {A : Type} (P Q : A -> Prop)
    `{!forall x, Decision (P x), !forall x, Decision (Q x)} (l : list A) :
  (forall x, x ∈ l -> P x <-> Q x) -> filter P l = filter Q l.
Proof.
  induction l as [|x l IH]; intros Hext; [done|].
  rewrite !filter_cons.
  rewrite IH by (intros y Hy; apply Hext; by right).
  destruct (decide (P x)) as [HP|HP], (decide (Q x)) as [HQ|HQ]; try done.
  - destruct HQ. apply Hext; [left|done].
  - destruct HP. apply Hext; [left|done].
Qed.

Lemma filter_zip_weights (cs : list video) (ws : list Z) :
  length cs = length ws ->
  (filter (fun vw : video * Z => 0 < vw.2) (zip cs ws)).*2
  = filter (fun w => 0 < w) ws.
Proof.
  revert ws. induction cs as [|c cs IH]; intros [|w ws]; try done.
  intros [= Hl]. cbn [zip zip_with]. rewrite !filter_cons. cbn [snd].
  destruct (decide (0 < w)); rewrite ?fmap_cons; cbn [snd]; by rewrite IH.
Qed.

Section pick_video_facts.
Variable strptime_Ymd : string -> option Z.

Lemma weight_nonneg now v h w : weight strptime_Ymd now v h = Ok w -> 0 <= w.
Proof.
  unfold weight, keyword_fold. unfold_result.
  destruct (keyword_loop v 1 _) as [b|] eqn:Hb; [|done]. intros [= <-].
  apply keyword_loop_nonneg in Hb; [|lia].
  destruct (recent strptime_Ymd now v); lia.
Qed.

Lemma weights_loop_spec clock cs h i ws :
  weights_loop strptime_Ymd clock i cs h = Ok ws ->
  length ws = length cs
  /\ forall j v, cs !! j = Some v ->
       exists w, ws !! j = Some w
                 /\ weight strptime_Ymd (clock (i + j)%nat) v h = Ok w.
Proof.
  revert i ws. induction cs as [|c cs IH]; intros i ws; simpl; unfold_result.
  - intros [= <-]. split; [done|]. intros j v Hj. done.
  - destruct (weight strptime_Ymd (clock i) c h) as [w|] eqn:Hw; [|done].
    destruct (weights_loop strptime_Ymd clock (S i) cs h) as [ws'|] eqn:Hl;
      [|done].
    intros [= <-]. destruct (IH _ _ Hl) as [Hlen Hlk].
    split; [simpl; lia|]. intros [|j] v Hj; simpl in *.
    + injection Hj as <-. exists w. by rewrite Nat.add_0_r.
    + destruct (Hlk j v Hj) as (w' & ? & ?). exists w'. split; [done|].
      by replace (i + S j)%nat with (S i + j)%nat by lia.
Qed.

Lemma weights_loop_nonneg clock cs h i ws :
  weights_loop strptime_Ymd clock i cs h = Ok ws ->
  Forall (fun w => 0 <= w) ws.
Proof.
  intros Hl. destruct (weights_loop_spec _ _ _ _ _ Hl) as [Hlen Hlk].
  apply Forall_lookup. intros j w Hj.
  destruct (lookup_lt_is_Some_2 cs j) as [v Hv].
  { rewrite <- Hlen. eapply lookup_lt_Some; eauto. }
  destruct (Hlk j v Hv) as (w' & Hw' & Hw). simplify_eq.
  by eapply weight_nonneg.
Qed.

(** The two filters of [pick_video] keep the same positions. *)
Lemma positive_is_nonzero clock cs h i ws :
  weights_loop strptime_Ymd clock i cs h = Ok ws ->
  filter (fun vw : video * Z => 0 < vw.2) (zip cs ws)
  = filter (fun vw : video * Z => vw.2 <> 0) (zip cs ws).
Proof.
  intros Hl. apply filter_ext_elem. intros [v w] Hin%elem_of_zip_r.
  pose proof (weights_loop_nonneg _ _ _ _ _ Hl) as Hnn.
  rewrite Forall_forall in Hnn. specialize (Hnn w Hin). simpl. lia.
Qed.

Lemma pick_video_unfold clock r videos h :
  pick_video strptime_Ymd clock r videos h
  = if bool_decide (unrated videos h = []) then Ok None
    else match weights_loop strptime_Ymd clock 0 (unrated videos h) h with
         | Ok ws =>
             let cs' :=
               (filter (fun vw : video * Z => 0 < vw.2)
                  (zip (unrated videos h) ws)).*1 in
             if bool_decide (cs' = []) then Ok None
             else match random_choices cs' (filter (fun w => 0 < w) ws) r with
                  | Ok v => Ok (Some v)
                  | Raise e => Raise e
                  end
         | Raise e => Raise e
         end.
Proof. reflexivity. Qed.

(** Whatever [pick_video] returns sits at some position of the unrated
    candidates, and the weight computed at that position is positive. *)
Lemma pick_video_Some clock r videos h c :
  pick_video strptime_Ymd clock r videos h = Ok (Some c) ->
  exists i w, unrated videos h !! i = Some c
              /\ weight strptime_Ymd (clock i) c h = Ok w /\ 0 < w.
Proof.
  rewrite pick_video_unfold. case_bool_decide; [done|].
  destruct (weights_loop _ _ _ _ _) as [ws|] eqn:Hl; [|done]. cbn zeta.
  case_bool_decide; [done|].
  destruct (random_choices _ _ _) as [v|] eqn:Hr; [|done]. intros [= ->].
  apply random_choices_elem in Hr.
  apply list_elem_of_fmap in Hr as ([c' w] & -> & Hin).
  apply list_elem_of_filter in Hin as [Hpos Hin]. simpl in *.
  apply list_elem_of_lookup in Hin as [i Hi].
  apply lookup_zip_with_Some in Hi as (c'' & w' & [= <- <-] & Hc & Hw).
  destruct (weights_loop_spec _ _ _ _ _ Hl) as [_ Hlk].
  destruct (Hlk i c' Hc) as (w'' & Hw'' & Hwt). simplify_eq.
  exists i, w. done.
Qed.
End pick_video_facts.

(** ** Claims about [pick_video] *)

(** C5: a candidate whose link is a key of the history is never the
    result of [pick_video], whatever the list of candidates, the clock
    and the draw. *)
Theorem rated_link_is_never_picked (strptime_Ymd : string -> option Z)
    (clock : nat -> datetime) (r : Z) (videos : list video) (h : history)
    (c : video) :
  dict_in (PStr (link c)) h = true ->
  pick_video strptime_Ymd clock r videos h <> Ok (Some c).
Proof.
  intros Hin Hp. apply pick_video_Some in Hp as (i & w & Hi & _).
  apply list_elem_of_lookup_2, list_elem_of_filter in Hi as [Hf _]. congruence.
Qed.

Lemma rated_link_is_never_picked_witness :
  pick_video strptime_8digits noon 0 [video_a; video_b; video_today]
    history_never <> Ok (Some video_a).
Proof.
  apply (rated_link_is_never_picked strptime_8digits noon 0
           [video_a; video_b; video_today] history_never video_a).
  reflexivity.
Defined.

(** C6: [pick_video] returns [None] exactly when no candidate is left
    once the candidates whose link is in the history and those whose
    computed weight is 0 are removed; it returns [None] when every
    candidate's link is in the history; a candidate it returns has a
    computed weight other than 0; and when a candidate is left it
    returns one. *)
Theorem pick_video_none_iff_nothing_left (strptime_Ymd : string -> option Z)
    (clock : nat -> datetime) (r : Z) (videos : list video) (h : history) :
  (pick_video strptime_Ymd clock r videos h = Ok None
   <-> exists weights,
         weights_loop strptime_Ymd clock 0 (unrated videos h) h = Ok weights
         /\ filter (fun vw : video * Z => vw.2 <> 0)
              (zip (unrated videos h) weights) = [])
  /\ (Forall (fun v => dict_in (PStr (link v)) h = true) videos ->
      pick_video strptime_Ymd clock r videos h = Ok None)
  /\ (forall c, pick_video strptime_Ymd clock r videos h = Ok (Some c) ->
      exists i w, unrated videos h !! i = Some c
                  /\ weight strptime_Ymd (clock i) c h = Ok w /\ w <> 0)
  /\ (forall weights,
        weights_loop strptime_Ymd clock 0 (unrated videos h) h = Ok weights ->
        filter (fun vw : video * Z => vw.2 <> 0)
          (zip (unrated videos h) weights) <> [] ->
        exists c, pick_video strptime_Ymd clock r videos h = Ok (Some c)).
Proof.
  split; [|split; [|split]].
  - rewrite pick_video_unfold. split.
    + case_bool_decide as Hcs.
      { intros _. exists []. rewrite Hcs. done. }
      destruct (weights_loop _ _ _ _ _) as [ws|] eqn:Hl; [|done]. cbn zeta.
      case_bool_decide as Hcs'; [|by destruct (random_choices _ _ _)].
      intros _. exists ws. split; [done|].
      rewrite <- (positive_is_nonzero _ _ _ _ _ _ Hl).
      by apply fmap_nil_inv in Hcs'.
    + intros (ws & Hl & Hnil). case_bool_decide; [done|]. rewrite Hl. cbn zeta.
      rewrite (positive_is_nonzero _ _ _ _ _ _ Hl), Hnil. done.
  - intros Hall. rewrite pick_video_unfold.
    rewrite bool_decide_eq_true_2; [done|]. unfold unrated.
    induction Hall as [|v vs Hv _ IH]; [done|].
    rewrite filter_cons_False; [done|]. congruence.
  - intros c Hp. apply pick_video_Some in Hp as (i & w & Hi & Hw & Hpos).
    exists i, w. split; [done|]. split; [done|]. lia.
  - intros ws Hl Hne. rewrite pick_video_unfold.
    rewrite <- (positive_is_nonzero _ _ _ _ _ _ Hl) in Hne.
    rewrite bool_decide_eq_false_2.
    2:{ intros Hnil. rewrite Hnil in Hne. done. }
    rewrite Hl. cbn zeta.
    rewrite bool_decide_eq_false_2.
    2:{ intros Hnil%fmap_nil_inv. done. }
    destruct (random_choices_total
                (filter (fun vw : video * Z => 0 < vw.2)
                   (zip (unrated videos h) ws)).*1
                (filter (fun w => 0 < w) ws) r) as [c ->]; [| | |eauto].
    + intros Hnil%fmap_nil_inv. done.
    + destruct (weights_loop_spec _ _ _ _ _ _ Hl) as [Hlen _].
      rewrite <- (filter_zip_weights (unrated videos h) ws) by done.
      by rewrite !length_fmap.
    + apply Forall_forall. by intros w [Hw _]%list_elem_of_filter.
Qed.

Lemma pick_video_none_iff_nothing_left_witness :
  pick_video strptime_8digits noon 0 [video_a] history_never = Ok None
  /\ (exists i w, unrated [video_a; video_b] history_never !! i = Some video_b
                  /\ weight strptime_8digits (noon i) video_b history_never
                     = Ok w /\ w <> 0)
  /\ (exists c, pick_video strptime_8digits noon 0 [video_a; video_b]
                  history_never = Ok (Some c)).
Proof.
  split; [|split].
  - apply (pick_video_none_iff_nothing_left strptime_8digits noon 0 [video_a]
             history_never).
    repeat constructor.
  - apply (pick_video_none_iff_nothing_left strptime_8digits noon 0
             [video_a; video_b] history_never).
    reflexivity.
  - apply (pick_video_none_iff_nothing_left strptime_8digits noon 0
             [video_a; video_b] history_never) with (weights := [2]).
    + reflexivity.
    + vm_compute. discriminate.
Defined.

(** ** The feedback file *)

Section dict_keys.
Context {K V : Type} `{EqDecision K}.
Implicit Types (k : K) (v : V) (d : list (K * V)).


End dict_keys.



Lemma load_rows_app h ds1 ds2 :
  load_rows h (ds1 ++ ds2) = (h' ← load_rows h ds1; load_rows h' ds2).
Proof.
  revert h. induction ds1 as [|d ds1 IH]; intros h; simpl; [done|].
  unfold_result. destruct (getitem d "link"); [apply IH|done].
Qed.




Lemma dict_set_values (k : pyval) (d : pydict) (h : history) (x : pydict) :
  x ∈ dict_values (dict_set k d h) -> x = d \/ x ∈ dict_values h.
Proof.
  unfold dict_values. induction h as [|[k' d'] h IH]; simpl.
  - intros [->|Hx%elem_of_nil]%elem_of_cons; [by left|done].
  - destruct (decide (k = k')); simpl.
    + intros [->|Hx]%elem_of_cons; [by left|]. right. by right.
    + intros [->|Hx]%elem_of_cons; [right; by left|].
      destruct (IH Hx); [by left|]. right. by right.
Qed.



Lemma weight_readable strptime_Ymd now v (h : history) :
  Forall readable (dict_values h) -> exists w, weight strptime_Ymd now v h = Ok w.
Proof.
  intros Hr. unfold weight, keyword_fold.
  destruct (keyword_loop_readable v _ 1 Hr) as [b ->]. unfold_result. eauto.
Qed.

(** The scenario of the specification: a [definitely] on [video_a],
    saved and loaded again, lifts the keyword fold of [video_b] to 4. *)
Example reload_after_definitely :
  exists h,
    load_feedback
      (save_feedback "2026-11-03T12:00:00" video_a "definitely" (Some "A") None)
    = Ok h
    /\ keyword_fold video_b h = Ok 4.
Proof. eexists. split; reflexivity. Qed.

(** A header without the link column makes the first record abort the
    load. *)
Example header_without_link_aborts :
  load_feedback (Some [["keyword"; "feedback"]; ["x"; "never"]])
  = Raise (KeyError (PStr "link")).
Proof. reflexivity. Qed.





(** A field with a carriage return is not read back as written: the
    file is written with the [newline] argument empty and read without
    it. *)
Lemma carriage_return_is_read_as_line_feed :
  universal_newlines (String "a" (String CR (String "b" EmptyString)))
  = String "a" (String LF (String "b" EmptyString)).
Proof. reflexivity. Qed.



(** ** The session loop *)

Lemma pick_video_unrated strptime_Ymd clock r videos h c :
  pick_video strptime_Ymd clock r videos h = Ok (Some c) ->
  c ∈ videos /\ dict_in (PStr (link c)) h = false.
Proof.
  intros (i & w & Hi & _)%pick_video_Some.
  apply list_elem_of_lookup_2, list_elem_of_filter in Hi as [Hf Hin]. done.
Qed.


(** The history of the counterexample to C2 is one a session reaches:
    from no feedback file, the user rates [video_a] never and then
    [video_b], shown thanks to its recency bonus, definitely. *)
Example session_reaches_never_then_definitely :
  exists f,
    interactive_loop strptime_8digits lower_only
      [video_a; video_b; video_today] None [turn_never; turn_definitely]
    = Ok (ACTIVE, {| memory := history_never_definitely; file := f |}).
Proof. eexists. vm_compute. reflexivity. Qed.



(** C9: on an input that is neither [quit] nor a rating, the turn leaves
    the feedback memory and the feedback file as they were, and the loop
    goes on, with the next prompt, from the same state. *)
Theorem invalid_input_changes_nothing (strptime_Ymd : string -> option Z)
    (strip_lower : string -> string) (videos : list video) (s : session)
    (e : reading) (v : video) :
  pick_video strptime_Ymd (now_at e) (draw e) videos (memory s) = Ok (Some v) ->
  strip_lower (typed e) <> "quit"%string ->
  strip_lower (typed e) ∉ RATINGS ->
  loop_body strptime_Ymd strip_lower videos s e = Ok (Continue s)
  /\ forall es,
       run_loop strptime_Ymd strip_lower videos s (e :: es)
       = run_loop strptime_Ymd strip_lower videos s es.
Proof.
  intros Hpick Hquit Hrating.
  assert (loop_body strptime_Ymd strip_lower videos s e = Ok (Continue s))
    as Hbody.
  { unfold loop_body. rewrite Hpick. unfold_result.
    by rewrite !bool_decide_eq_false_2 by done. }
  split; [done|]. intros es. cbn [run_loop]. by rewrite Hbody.
Qed.

Lemma invalid_input_changes_nothing_witness :
  loop_body strptime_8digits lower_only [video_a; video_b; video_today]
    fresh_session turn_later = Ok (Continue fresh_session)
  /\ forall es,
       run_loop strptime_8digits lower_only [video_a; video_b; video_today]
         fresh_session (turn_later :: es)
       = run_loop strptime_8digits lower_only [video_a; video_b; video_today]
           fresh_session es.
Proof.
  apply (invalid_input_changes_nothing strptime_8digits lower_only
           [video_a; video_b; video_today] fresh_session turn_later video_a).
  - reflexivity.
  - vm_compute. discriminate.
  - vm_compute. intros Hin.
    repeat (apply elem_of_cons in Hin as [Hin|Hin]; [discriminate|]).
    by apply elem_of_nil in Hin.
Defined.

(** ** [pick_video] on objects *)

Lemma preserves_refl hp : preserves hp hp.
Proof. by intros l _. Qed.

Lemma preserves_trans hp1 hp2 hp3 :
  preserves hp1 hp2 -> preserves hp2 hp3 -> preserves hp1 hp3.
Proof.
  intros H12 H23 l Hl. rewrite <- (H12 l Hl). apply H23.
  by rewrite (H12 l Hl).
Qed.

Lemma fresh_unused (hp : gmap nat obj) : hp !! fresh (dom hp) = None.
Proof. apply not_elem_of_dom, is_fresh. Qed.

Lemma preserves_new hp o : preserves hp (<[fresh (dom hp) := o]> hp).
Proof.
  intros l [x Hl]. apply lookup_insert_ne. intros <-.
  by rewrite fresh_unused in Hl.
Qed.

Lemma run_bind {A B : Type} (m : prog A) (k : A -> prog B) hp :
  (m ≫= k) hp
  = match m hp with
    | (Ok a, hp') => k a hp'
    | (Raise e, hp') => (Raise e, hp')
    end.
Proof. reflexivity. Qed.

Lemma run_get_videos l hp vs :
  hp !! l = Some (OVideos vs) -> get_videos l hp = (Ok vs, hp).
Proof. unfold get_videos. by intros ->. Qed.

Lemma run_get_ints l hp ws :
  hp !! l = Some (OInts ws) -> get_ints l hp = (Ok ws, hp).
Proof. unfold get_ints. by intros ->. Qed.

Lemma run_get_dict l hp d :
  hp !! l = Some (ODict d) -> get_dict l hp = (Ok d, hp).
Proof. unfold get_dict. by intros ->. Qed.

Section pick_video_obj_facts.
Variable strptime_Ymd : string -> option Z.

(** The loop writes to the list [weights] only, and leaves in it the
    weights of the value-level loop, after those it held. *)
Lemma weights_loop_obj_spec clock cs feedback_memory weights fm :
  forall i hp ws0,
    hp !! feedback_memory = Some (ODict fm) ->
    hp !! weights = Some (OInts ws0) ->
    exists hp',
      weights_loop_obj strptime_Ymd clock i cs feedback_memory weights hp
      = (match weights_loop strptime_Ymd clock i cs fm with
         | Ok _ => Ok tt
         | Raise e => Raise e
         end, hp')
      /\ (forall l, l <> weights -> hp' !! l = hp !! l)
      /\ (forall ws, weights_loop strptime_Ymd clock i cs fm = Ok ws ->
            hp' !! weights = Some (OInts (ws0 ++ ws))).
Proof.
  induction cs as [|c cs IH]; intros i hp ws0 Hfm Hws; simpl.
  - exists hp. split; [done|]. split; [done|]. unfold_result.
    intros ws [= <-]. by rewrite app_nil_r.
  - rewrite run_bind, (run_get_dict _ _ _ Hfm), run_bind. unfold lift.
    unfold_result.
    destruct (weight strptime_Ymd (clock i) c fm) as [base|e].
    2:{ exists hp. done. }
    rewrite run_bind. unfold append at 1. rewrite Hws.
    assert (feedback_memory <> weights) as Hne by (intros ->; congruence).
    destruct (IH (S i) (<[weights := OInts (ws0 ++ [base])]> hp)
                (ws0 ++ [base])) as (hp' & -> & Hframe & Hres).
    { by rewrite lookup_insert_ne. }
    { by rewrite lookup_insert_eq. }
    exists hp'. split; [|split].
    + by destruct (weights_loop strptime_Ymd clock (S i) cs fm).
    + intros l Hl. rewrite (Hframe l Hl). by rewrite lookup_insert_ne.
    + intros ws. destruct (weights_loop strptime_Ymd clock (S i) cs fm)
        as [ws'|]; [|done].
      intros [= <-]. rewrite (Hres ws' eq_refl). by rewrite <- app_assoc.
Qed.

(** C10: [pick_video] leaves the caller's list of candidates and the
    feedback memory as they were, the same candidates in the same
    order and the same mapping, whether it returns a candidate, [None]
    or raises; it leaves every object the caller could hold as it was,
    and it returns what the value-level [pick_video] computes from the
    two. *)
Theorem pick_video_leaves_inputs (clock : nat -> datetime) (r : Z)
    (videos feedback_memory : nat) (hp : gmap nat obj)
    (vs : list video) (fm : history) :
  hp !! videos = Some (OVideos vs) ->
  hp !! feedback_memory = Some (ODict fm) ->
  exists hp',
    pick_video_obj strptime_Ymd clock r videos feedback_memory hp
    = (pick_video strptime_Ymd clock r vs fm, hp')
    /\ hp' !! videos = Some (OVideos vs)
    /\ hp' !! feedback_memory = Some (ODict fm)
    /\ preserves hp hp'.
Proof.
  intros Hvs Hfm.
  cut (exists hp',
         pick_video_obj strptime_Ymd clock r videos feedback_memory hp
         = (pick_video strptime_Ymd clock r vs fm, hp')
         /\ preserves hp hp').
  { intros (hp' & Hrun & Hpre). exists hp'. split; [done|].
    rewrite <- Hvs, <- Hfm. split; [|split]; [apply Hpre..|done];
      [rewrite Hvs|rewrite Hfm]; eauto. }
  unfold pick_video_obj.
  rewrite run_bind, (run_get_videos _ _ _ Hvs).
  rewrite run_bind, (run_get_dict _ _ _ Hfm).
  rewrite run_bind. unfold new at 1. cbn beta zeta.
  fold (unrated vs fm).
  set (hp1 := <[fresh (dom hp) := OVideos (unrated vs fm)]> hp).
  assert (preserves hp hp1) as H1 by apply preserves_new.
  rewrite run_bind, (run_get_videos _ hp1 (unrated vs fm))
    by apply lookup_insert_eq.
  rewrite pick_video_unfold. case_bool_decide as Hcs.
  { exists hp1. done. }
  rewrite run_bind. unfold new at 1. cbn beta zeta.
  set (weights := fresh (dom hp1)).
  set (hp2 := <[weights := OInts []]> hp1).
  assert (hp1 !! feedback_memory = Some (ODict fm)) as Hfm1.
  { rewrite (H1 feedback_memory); [done|]. rewrite Hfm. eauto. }
  assert (hp2 !! feedback_memory = Some (ODict fm)) as Hfm2.
  { unfold hp2. rewrite (preserves_new hp1 _ feedback_memory); [done|].
    rewrite Hfm1. eauto. }
  destruct (weights_loop_obj_spec clock (unrated vs fm) feedback_memory
              weights fm 0%nat hp2 []) as (hp3 & Hrun & Hframe & Hres);
    [done|apply lookup_insert_eq|].
  rewrite run_bind, Hrun.
  assert (preserves hp1 hp3) as H3.
  { intros l Hl. rewrite Hframe.
    - by apply preserves_new.
    - intros ->. unfold weights in Hl. rewrite fresh_unused in Hl.
      by destruct Hl. }
  destruct (weights_loop strptime_Ymd clock 0 (unrated vs fm) fm) as [ws|e].
  2:{ exists hp3. split; [done|]. by eapply preserves_trans. }
  rewrite run_bind, (run_get_ints _ hp3 ws) by apply (Hres ws eq_refl).
  rewrite run_bind. unfold new at 1. cbn beta zeta.
  set (cs' := (filter (fun vw : video * Z => 0 < vw.2)
                 (zip (unrated vs fm) ws)).*1).
  set (candidates' := fresh (dom hp3)).
  set (hp4 := <[candidates' := OVideos cs']> hp3).
  rewrite run_bind. unfold new at 1. cbn beta zeta.
  set (ws' := filter (fun w => 0 < w) ws).
  set (weights' := fresh (dom hp4)).
  set (hp5 := <[weights' := OInts ws']> hp4).
  assert (preserves hp3 hp4) as H4 by apply preserves_new.
  assert (preserves hp4 hp5) as H5 by apply preserves_new.
  assert (preserves hp hp5) as H05 by eauto using preserves_trans.
  rewrite run_bind, (run_get_videos _ hp5 cs').
  2:{ rewrite H5; unfold hp4; rewrite lookup_insert_eq; eauto. }
  case_bool_decide as Hcs'.
  { exists hp5. done. }
  rewrite run_bind, (run_get_ints _ hp5 ws') by apply lookup_insert_eq.
  rewrite run_bind. unfold lift.
  exists hp5. split; [|done].
  by destruct (random_choices cs' ws' r).
Qed.
End pick_video_obj_facts.

Lemma pick_video_leaves_inputs_witness :
  exists hp',
    pick_video_obj strptime_8digits noon 0 0%nat 1%nat caller_heap
    = (pick_video strptime_8digits noon 0 [video_a; video_b; video_today]
         history_never, hp')
    /\ hp' !! 0%nat = Some (OVideos [video_a; video_b; video_today])
    /\ hp' !! 1%nat = Some (ODict history_never)
    /\ preserves caller_heap hp'.
Proof.
  apply (pick_video_leaves_inputs strptime_8digits noon 0 0%nat 1%nat
           caller_heap [video_a; video_b; video_today] history_never).
  - reflexivity.
  - reflexivity.
Defined.

(** * Further properties *)

(** ** The keyword fold *)

Lemma keyword_step_maybe v base fb :
  rates fb (keyword v) "maybe" -> keyword_step v base fb = Ok (base + 1).
Proof.
  intros [Hk Hf]. unfold keyword_step.
  rewrite (getitem_Some _ _ _ Hk), (getitem_Some _ _ _ Hf).
  unfold_result. unfold py_eq. rewrite bool_decide_eq_true_2 by done. done.
Qed.

Lemma keyword_step_other v base fb :
  readable fb ->
  ~ rates fb (keyword v) "definitely" -> ~ rates fb (keyword v) "maybe" ->
  ~ rates fb (keyword v) "never" ->
  keyword_step v base fb = Ok base.
Proof.
  intros [[kw Hk] [f Hf]] Hd Hm Hn. unfold keyword_step.
  rewrite (getitem_Some _ _ _ Hk), (getitem_Some _ _ _ Hf). unfold_result.
  destruct (py_eq kw _) eqn:Ekw; [|done]. apply py_eq_true in Ekw as ->.
  destruct (py_eq f (PStr "definitely")) eqn:E1.
  { apply py_eq_true in E1 as ->. destruct Hd. by split. }
  destruct (py_eq f (PStr "maybe")) eqn:E2.
  { apply py_eq_true in E2 as ->. destruct Hm. by split. }
  destruct (py_eq f (PStr "never")) eqn:E3; [|done].
  apply py_eq_true in E3 as ->. destruct Hn. by split.
Qed.

Lemma rates_functional fb kw r1 r2 : rates fb kw r1 -> rates fb kw r2 -> r1 = r2.
Proof. intros [_ H1] [_ H2]. congruence. Qed.

Lemma count_rating_cons kw rating fb fbs :
  count_rating kw rating (fb :: fbs)
  = (if decide (rates fb kw rating) then 1 else 0) + count_rating kw rating fbs.
Proof.
  unfold count_rating. rewrite filter_cons.
  destruct (decide (rates fb kw rating)); simpl length; lia.
Qed.

(** Without a [never] on the keyword, the loop adds 3 for every
    [definitely] and 1 for every [maybe] on the keyword. *)
Lemma keyword_loop_counts v fbs base :
  Forall readable fbs ->
  Forall (fun fb => ~ rates fb (keyword v) "never") fbs ->
  keyword_loop v base fbs
  = Ok (base + 3 * count_rating (keyword v) "definitely" fbs
        + count_rating (keyword v) "maybe" fbs).
Proof.
  intros Hr. revert base.
  induction Hr as [|fb fbs Hfb _ IH]; intros base Hn.
  - simpl. unfold_result. f_equal. unfold count_rating. simpl. lia.
  - inversion Hn as [|?? Hn1 Hn2]; subst. cbn [keyword_loop].
    rewrite !count_rating_cons.
    destruct (decide (rates fb (keyword v) "definitely")) as [Hd|Hd].
    + rewrite (keyword_step_definitely _ _ _ Hd). unfold_result.
      rewrite decide_False
        by (intros Hm; by pose proof (rates_functional _ _ _ _ Hd Hm)).
      rewrite IH by done. f_equal; lia.
    + destruct (decide (rates fb (keyword v) "maybe")) as [Hm|Hm].
      * rewrite (keyword_step_maybe _ _ _ Hm). unfold_result.
        rewrite IH by done. f_equal; lia.
      * rewrite keyword_step_other by done. unfold_result.
        rewrite IH by done. f_equal; lia.
Qed.

(** X1: on a history whose records carry the keyword and the rating and
    hold no [never] on the candidate's keyword, the keyword fold is
    1 plus 3 for every [definitely] and 1 for every [maybe] on that
    keyword, whatever the order of the records. *)
Theorem fold_without_never_counts (v : video) (h : history) :
  Forall readable (dict_values h) ->
  Forall (fun fb => ~ rates fb (keyword v) "never") (dict_values h) ->
  keyword_fold v h
  = Ok (1 + 3 * count_rating (keyword v) "definitely" (dict_values h)
        + count_rating (keyword v) "maybe" (dict_values h)).
Proof. intros Hr Hn. unfold keyword_fold. by apply keyword_loop_counts. Qed.

Lemma fold_without_never_counts_witness :
  keyword_fold video_b [rated video_a "definitely"; rated video_today "maybe"]
  = Ok 5.
Proof.
  apply (fold_without_never_counts video_b
           [rated video_a "definitely"; rated video_today "maybe"]).
  - repeat constructor; vm_compute; eauto.
  - repeat constructor; intros [_ H]; vm_compute in H; discriminate.
Defined.

(** X2: after the last [never] on the candidate's keyword, the fold is
    what the later records add: 3 for every [definitely] and 1 for every
    [maybe] on the keyword that follow it, whatever came before. *)
Theorem fold_after_last_never_counts (v : video) (h1 h2 : history)
    (k : pyval) (fb : pydict) :
  Forall readable (dict_values h1) ->
  rates fb (keyword v) "never" ->
  Forall readable (dict_values h2) ->
  Forall (fun fb' => ~ rates fb' (keyword v) "never") (dict_values h2) ->
  keyword_fold v (h1 ++ (k, fb) :: h2)
  = Ok (3 * count_rating (keyword v) "definitely" (dict_values h2)
        + count_rating (keyword v) "maybe" (dict_values h2)).
Proof.
  intros Hr1 Hn Hr2 Hn2. unfold keyword_fold, dict_values in *.
  rewrite fmap_app, fmap_cons, keyword_loop_app.
  destruct (keyword_loop_readable v _ 1 Hr1) as [b1 ->]. unfold_result.
  cbn [keyword_loop snd]. rewrite (keyword_step_never _ _ _ Hn). unfold_result.
  rewrite keyword_loop_counts by done. f_equal.
Qed.

Lemma fold_after_last_never_counts_witness :
  keyword_fold video_today history_never_definitely = Ok 3.
Proof.
  apply (fold_after_last_never_counts video_today [] [rated video_b "definitely"]
           (rated video_a "never").1 (rated video_a "never").2).
  - constructor.
  - split; reflexivity.
  - repeat constructor; vm_compute; eauto.
  - repeat constructor; intros [_ H]; vm_compute in H; discriminate.
Defined.

(** X3: a record on another keyword, or with a rating that is none of
    [definitely], [maybe] and [never] (the one-letter ratings of the
    simpler script, say), changes no weight, wherever it stands. *)
Theorem foreign_record_is_ignored (strptime_Ymd : string -> option Z)
    (now : datetime) (v : video) (h1 h2 : history) (k : pyval) (fb : pydict) :
  readable fb ->
  ~ rates fb (keyword v) "definitely" -> ~ rates fb (keyword v) "maybe" ->
  ~ rates fb (keyword v) "never" ->
  weight strptime_Ymd now v (h1 ++ (k, fb) :: h2)
  = weight strptime_Ymd now v (h1 ++ h2).
Proof.
  intros Hr Hd Hm Hn. unfold weight, keyword_fold, dict_values.
  rewrite !fmap_app, fmap_cons, !keyword_loop_app. cbn [keyword_loop snd].
  unfold_result. destruct (keyword_loop v 1 h1.*2) as [b1|]; [|done].
  by rewrite keyword_step_other by done.
Qed.

Lemma foreign_record_is_ignored_witness :
  weight strptime_8digits (noon 0%nat) video_today
    (history_never ++ [rated video_b "y"])
  = weight strptime_8digits (noon 0%nat) video_today (history_never ++ []).
Proof.
  apply (foreign_record_is_ignored strptime_8digits (noon 0%nat) video_today
           history_never [] (rated video_b "y").1 (rated video_b "y").2).
  - split; vm_compute; eauto.
  - intros [_ H]; vm_compute in H; discriminate.
  - intros [_ H]; vm_compute in H; discriminate.
  - intros [_ H]; vm_compute in H; discriminate.
Defined.

(** X4: a [never] record on the candidate's keyword, inserted at any
    place of the history, never raises the weight. *)
Theorem never_never_increases (strptime_Ymd : string -> option Z)
    (now : datetime) (v : video) (h1 h2 : history) (k : pyval) (fb : pydict)
    (w : Z) :
  rates fb (keyword v) "never" ->
  weight strptime_Ymd now v (h1 ++ h2) = Ok w ->
  exists w', weight strptime_Ymd now v (h1 ++ (k, fb) :: h2) = Ok w' /\ w' <= w.
Proof.
  intros Hn. unfold weight, keyword_fold, dict_values.
  rewrite !fmap_app, fmap_cons, !keyword_loop_app. cbn [keyword_loop snd].
  unfold_result.
  destruct (keyword_loop v 1 h1.*2) as [b1|] eqn:H1; [|done].
  rewrite (keyword_step_never _ _ _ Hn).
  destruct (keyword_loop v b1 h2.*2) as [b2|] eqn:H2; [|done].
  intros [= <-].
  assert (0 <= b1) as Hb1 by (eapply keyword_loop_nonneg; [|exact H1]; lia).
  destruct (keyword_loop v 0 h2.*2) as [b0|] eqn:H0.
  - destruct (keyword_loop_mono v h2.*2 0 b1 b0 Hb1 H0) as (b2' & Hb2' & Hle).
    rewrite H2 in Hb2'. injection Hb2' as <-.
    eexists; split; [reflexivity|]. destruct (recent strptime_Ymd now v); lia.
  - exfalso. clear -H2 H0. revert b1 H2 H0.
    generalize 0. induction (h2.*2) as [|fb' fbs IH]; intros b0 b1; simpl.
    + unfold_result. done.
    + unfold_result.
      destruct (keyword_step v b1 fb') as [c1|] eqn:E1; [|done].
      destruct (keyword_step v b0 fb') as [c0|] eqn:E0; [by eauto|].
      intros _ _. revert E1 E0. unfold keyword_step. unfold_result.
      repeat case_match; done.
Qed.

Lemma never_never_increases_witness :
  exists w', weight strptime_8digits (noon 0%nat) video_today
               ([rated video_b "definitely"] ++ [rated video_a "never"])
             = Ok w'
             /\ w' <= 6.
Proof.
  apply (never_never_increases strptime_8digits (noon 0%nat) video_today
           [rated video_b "definitely"] [] (rated video_a "never").1
           (rated video_a "never").2 6).
  - split; reflexivity.
  - reflexivity.
Defined.

(** X5: a weight is never negative, and it is 0, so that the candidate
    is dropped, exactly when the keyword fold gave 0 and the candidate
    is not recent. *)
Theorem weight_zero_iff (strptime_Ymd : string -> option Z) (now : datetime)
    (v : video) (h : history) (w : Z) :
  weight strptime_Ymd now v h = Ok w ->
  0 <= w
  /\ (w = 0 <-> keyword_fold v h = Ok 0 /\ recent strptime_Ymd now v = false).
Proof.
  unfold weight, keyword_fold. unfold_result.
  destruct (keyword_loop v 1 _) as [b|] eqn:Hb; [|done]. intros [= <-].
  apply keyword_loop_nonneg in Hb; [|lia].
  destruct (recent strptime_Ymd now v); (split; [lia|]).
  - split; [lia|]. by intros [_ ?].
  - split; [by intros ->|]. by intros [[= ->] _].
Qed.

Lemma weight_zero_iff_witness :
  0 <= 0
  /\ (0 = 0 <-> keyword_fold video_a [rated video_b "never"] = Ok 0
                /\ recent strptime_8digits (noon 0%nat) video_a = false).
Proof.
  apply (weight_zero_iff strptime_8digits (noon 0%nat) video_a
           [rated video_b "never"] 0).
  reflexivity.
Defined.

(** ** What [pick_video] can raise *)

Lemma getitem_raise d k e : getitem d k = Raise e -> e = KeyError (PStr k).
Proof. unfold getitem. destruct (dict_get _ _); [done|]. by intros [= <-]. Qed.

Lemma keyword_step_raise v base fb e :
  keyword_step v base fb = Raise e ->
  e = KeyError (PStr "keyword") \/ e = KeyError (PStr "feedback").
Proof.
  unfold keyword_step. unfold_result.
  destruct (getitem fb "keyword") as [kw|e'] eqn:Hk.
  2:{ intros [= <-]. left. by eapply getitem_raise. }
  destruct (py_eq kw _); [|done].
  destruct (getitem fb "feedback") as [f|e'] eqn:Hf.
  2:{ intros [= <-]. right. by eapply getitem_raise. }
  repeat case_match; done.
Qed.

Lemma keyword_loop_raise v fbs base e :
  keyword_loop v base fbs = Raise e ->
  e = KeyError (PStr "keyword") \/ e = KeyError (PStr "feedback").
Proof.
  revert base. induction fbs as [|fb fbs IH]; intros base; simpl; [done|].
  unfold_result. destruct (keyword_step v base fb) as [b|e'] eqn:Hs.
  - apply IH.
  - intros [= <-]. by eapply keyword_step_raise.
Qed.

Section pick_video_errors.
Variable strptime_Ymd : string -> option Z.

Lemma weights_loop_raise clock cs h i e :
  weights_loop strptime_Ymd clock i cs h = Raise e ->
  e = KeyError (PStr "keyword") \/ e = KeyError (PStr "feedback").
Proof.
  revert i. induction cs as [|c cs IH]; intros i; simpl; [done|].
  unfold weight, keyword_fold. unfold_result.
  destruct (keyword_loop c 1 _) as [b|e'] eqn:Hb.
  - destruct (weights_loop strptime_Ymd clock (S i) cs h) eqn:Hl; [done|].
    intros [= <-]. by eapply IH.
  - intros [= <-]. by eapply keyword_loop_raise.
Qed.

Lemma weights_loop_readable clock cs (h : history) i :
  Forall readable (dict_values h) ->
  exists ws, weights_loop strptime_Ymd clock i cs h = Ok ws.
Proof.
  intros Hr. revert i. induction cs as [|c cs IH]; intros i; simpl.
  - unfold_result. eauto.
  - destruct (weight_readable strptime_Ymd (clock i) c h Hr) as [w ->].
    destruct (IH (S i)) as [ws ->]. unfold_result. eauto.
Qed.

(** The draw of [pick_video] never raises: the two filtered lists have
    the same length and the weights that remain are positive. *)
Lemma pick_video_draw_returns clock i cs h ws r :
  weights_loop strptime_Ymd clock i cs h = Ok ws ->
  (filter (fun vw : video * Z => 0 < vw.2) (zip cs ws)).*1 <> [] ->
  exists c,
    random_choices (filter (fun vw : video * Z => 0 < vw.2) (zip cs ws)).*1
      (filter (fun w => 0 < w) ws) r = Ok c.
Proof.
  intros Hl Hne. apply random_choices_total; [done| |].
  - destruct (weights_loop_spec _ _ _ _ _ _ Hl) as [Hlen _].
    rewrite <- (filter_zip_weights cs ws) by done. by rewrite !length_fmap.
  - apply Forall_forall. by intros w [Hw _]%list_elem_of_filter.
Qed.

(** X6: [pick_video] raises nothing but the [KeyError] of a history
    entry that lacks the key [keyword] or the key [feedback]; the
    weighted draw itself never raises.  On a history whose entries all
    carry the two keys it always returns, a candidate or [None]. *)
Theorem pick_video_raises_only_KeyError (clock : nat -> datetime) (r : Z)
    (videos : list video) (h : history) :
  (forall e, pick_video strptime_Ymd clock r videos h = Raise e ->
     e = KeyError (PStr "keyword") \/ e = KeyError (PStr "feedback"))
  /\ (Forall readable (dict_values h) ->
      exists res, pick_video strptime_Ymd clock r videos h = Ok res).
Proof.
  split.
  - intros e. rewrite pick_video_unfold. case_bool_decide; [done|].
    destruct (weights_loop _ _ _ _ _) as [ws|e'] eqn:Hl.
    2:{ intros [= <-]. by eapply weights_loop_raise. }
    cbn zeta. case_bool_decide as Hne; [done|].
    destruct (pick_video_draw_returns _ _ _ _ _ r Hl Hne) as [c ->]. done.
  - intros Hr. rewrite pick_video_unfold. case_bool_decide; [eauto|].
    destruct (weights_loop_readable clock (unrated videos h) h 0%nat Hr)
      as [ws Hl].
    rewrite Hl. cbn zeta. case_bool_decide as Hne; [eauto|].
    destruct (pick_video_draw_returns _ _ _ _ _ r Hl Hne) as [c ->]. eauto.
Qed.
End pick_video_errors.

Lemma pick_video_raises_only_KeyError_witness :
  (KeyError (PStr "keyword") = KeyError (PStr "keyword")
   \/ KeyError (PStr "keyword") = KeyError (PStr "feedback"))
  /\ exists res,
       pick_video strptime_8digits noon 0 [video_a; video_b; video_today]
         history_never = Ok res.
Proof.
  split.
  - apply (proj1 (pick_video_raises_only_KeyError strptime_8digits noon 0
                    [video_a] history_without_keyword)).
    reflexivity.
  - apply (pick_video_raises_only_KeyError strptime_8digits noon 0
             [video_a; video_b; video_today] history_never).
    repeat constructor; vm_compute; eauto.
Defined.

(** ** The weighted draw *)

Lemma Z_sum_nonneg (ws : list Z) :
  Forall (fun w => 0 < w) ws -> 0 <= Z_sum ws.
Proof. induction 1 as [|w ws Hw _ IH]; simpl; lia. Qed.

Lemma bisect_interval (ws : list Z) :
  forall (acc r : Z) (hi i : nat) (w : Z),
    Forall (fun w => 0 < w) ws ->
    ws !! i = Some w ->
    acc + Z_sum (take i ws) <= r < acc + Z_sum (take i ws) + w ->
    (i <= hi)%nat ->
    bisect (accumulate acc ws) r hi = i.
Proof.
  induction ws as [|w0 ws IH]; intros acc r hi i w Hpos Hi Hr Hhi; [done|].
  inversion Hpos as [|?? Hw0 Hpos']; subst.
  destruct i as [|i]; simpl in Hi, Hr.
  - injection Hi as <-. destruct hi as [|hi]; [done|]. simpl.
    destruct (Z.ltb_spec r (acc + w0)); [done|lia].
  - destruct hi as [|hi]; [lia|]. simpl.
    pose proof (Z_sum_nonneg (take i ws) (Forall_take _ _ _ Hpos')).
    destruct (Z.ltb_spec r (acc + w0)); [lia|]. f_equal.
    apply (IH (acc + w0) r hi i w); [done|done|lia|lia].
Qed.

(** With positive weights, the member at position [i] is drawn for the
    draws [r] of the [i]-th of the consecutive intervals whose lengths
    are the weights. *)
Lemma random_choices_interval {A : Type} (population : list A)
    (weights : list Z) (r : Z) (i : nat) (x : A) (w : Z) :
  length weights = length population ->
  Forall (fun w => 0 < w) weights ->
  population !! i = Some x ->
  weights !! i = Some w ->
  Z_sum (take i weights) <= r < Z_sum (take i weights) + w ->
  random_choices population weights r = Ok x.
Proof.
  intros Hlen Hpos Hx Hw Hr. unfold random_choices.
  rewrite bool_decide_eq_true_2 by (by rewrite accumulate_length).
  destruct (accumulate_last 0 weights Hpos) as (total & -> & Hlt).
  { intros ->. done. }
  destruct (Z.leb_spec total 0); [lia|].
  rewrite (bisect_interval weights 0 r (length population - 1) i w);
    [by rewrite Hx|done|done|lia|].
  apply lookup_lt_Some in Hx. lia.
Qed.

(** X7: the draw follows the weights.  Take the unrated candidates with
    a positive weight, in their order: the one at position [i] is
    returned exactly for the draws [r] of the [i]-th of the consecutive
    intervals whose lengths are those weights, as many values of [r] as
    its weight. *)
Theorem draw_follows_the_weights (strptime_Ymd : string -> option Z)
    (clock : nat -> datetime) (r : Z) (videos : list video) (h : history)
    (weights : list Z) (i : nat) (c : video) (w : Z) :
  weights_loop strptime_Ymd clock 0 (unrated videos h) h = Ok weights ->
  let kept :=
    filter (fun vw : video * Z => 0 < vw.2) (zip (unrated videos h) weights) in
  kept !! i = Some (c, w) ->
  Z_sum (take i kept.*2) <= r < Z_sum (take i kept.*2) + w ->
  pick_video strptime_Ymd clock r videos h = Ok (Some c).
Proof.
  intros Hl kept Hi Hr. rewrite pick_video_unfold.
  assert (kept <> []) as Hne by (intros Hnil; by rewrite Hnil in Hi).
  rewrite bool_decide_eq_false_2.
  2:{ intros Hnil. unfold kept in Hne. by rewrite Hnil in Hne. }
  rewrite Hl. cbn zeta. fold kept.
  rewrite bool_decide_eq_false_2 by (by intros ?%fmap_nil_inv).
  destruct (weights_loop_spec _ _ _ _ _ _ Hl) as [Hlen _].
  rewrite <- (filter_zip_weights (unrated videos h) weights) by done.
  fold kept.
  rewrite (random_choices_interval kept.*1 kept.*2 r i c w); [done| | | | |done].
  - by rewrite !length_fmap.
  - apply Forall_fmap, Forall_forall.
    by intros vw [Hw _]%list_elem_of_filter.
  - by rewrite list_lookup_fmap, Hi.
  - by rewrite list_lookup_fmap, Hi.
Qed.

Lemma draw_follows_the_weights_witness :
  pick_video strptime_8digits noon 4 [video_a; video_b; video_today] []
  = Ok (Some video_today).
Proof.
  apply (draw_follows_the_weights strptime_8digits noon 4
           [video_a; video_b; video_today] [] [1; 3; 3] 2%nat video_today 3).
  - reflexivity.
  - reflexivity.
  - vm_compute. split; [discriminate|reflexivity].
Defined.

(** ** What [load_feedback] returns *)

Section dict_shape.
Context {K V : Type} `{EqDecision K}.
Implicit Types (k : K) (v : V) (d : list (K * V)).

Lemma dict_in_keys k d : dict_in k d = true <-> k ∈ d.*1.
Proof.
  unfold dict_in. rewrite bool_decide_eq_true.
  induction d as [|[k' v'] d IH]; simpl.
  - rewrite elem_of_nil. split; [by intros [??]|done].
  - rewrite elem_of_cons. destruct (decide (k = k')) as [->|Hne].
    + split; eauto.
    + rewrite IH. split; [eauto|]. by intros [?|?].
Qed.

Lemma dict_set_keys k v d :
  (dict_set k v d).*1 = if dict_in k d then d.*1 else d.*1 ++ [k].
Proof.
  induction d as [|[k' v'] d IH]; [done|].
  cbn [dict_set]. unfold dict_in. cbn [dict_get].
  destruct (decide (k = k')) as [->|Hne].
  - rewrite bool_decide_eq_true_2 by eauto. by rewrite !fmap_cons.
  - rewrite !fmap_cons, IH. unfold dict_in.
    by destruct (bool_decide (is_Some (dict_get k d))).
Qed.

Lemma dict_set_NoDup k v d : NoDup d.*1 -> NoDup (dict_set k v d).*1.
Proof.
  intros Hnd. rewrite dict_set_keys. destruct (dict_in k d) eqn:Hin; [done|].
  apply NoDup_app. split; [done|]. split; [|apply NoDup_singleton].
  intros k' Hk' ->%list_elem_of_singleton.
  apply dict_in_keys in Hk'. congruence.
Qed.
End dict_shape.

Lemma load_rows_shape (ds : list pydict) :
  forall (h0 h : history),
    load_rows h0 ds = Ok h ->
    (NoDup h0.*1 -> NoDup h.*1)
    /\ (forall k, dict_in k h = true
          <-> dict_in k h0 = true
              \/ exists d, d ∈ ds /\ dict_get (PStr "link") d = Some k)
    /\ (forall k, Forall (fun d => dict_get (PStr "link") d <> Some k) ds ->
          dict_get k h = dict_get k h0).
Proof.
  induction ds as [|d ds IH]; intros h0 h; simpl; unfold_result.
  - intros [= <-]. split; [done|]. split; [|done]. intros k. split; [eauto|].
    intros [?|(d & Hd%elem_of_nil & _)]; done.
  - unfold getitem. destruct (dict_get (PStr "link") d) as [k0|] eqn:Hk0; [|done].
    intros Hload. destruct (IH _ _ Hload) as (Hnd & Hin & Hget).
    split; [|split].
    + intros H0. by apply Hnd, dict_set_NoDup.
    + intros k. rewrite Hin, dict_in_set. split.
      * intros [[->|?]|(d' & Hd' & Hk)]; [right|by left|right].
        -- exists d. split; [left|done].
        -- exists d'. split; [by right|done].
      * intros [?|(d' & [->|Hd']%elem_of_cons & Hk)].
        -- left. by right.
        -- left. left. congruence.
        -- right. eauto.
    + intros k Hall. inversion Hall as [|?? Hne Hall']; subst.
      rewrite (Hget k Hall'). apply dict_get_set_ne. congruence.
Qed.

(** X8: when [load_feedback] succeeds on an existing file, the history
    it returns has no key twice, its keys are exactly the values of the
    link column of the records read, and under each key stands the last
    record read with that link. *)
Theorem load_feedback_last_record_wins (rows : list (list string))
    (h : history) :
  load_feedback (Some rows) = Ok h ->
  NoDup h.*1
  /\ (forall k, dict_in k h = true
        <-> exists d, d ∈ DictReader (text_mode rows)
                      /\ dict_get (PStr "link") d = Some k)
  /\ (forall ds1 d ds2 k,
        DictReader (text_mode rows) = ds1 ++ d :: ds2 ->
        dict_get (PStr "link") d = Some k ->
        Forall (fun d' => dict_get (PStr "link") d' <> Some k) ds2 ->
        dict_get k h = Some d).
Proof.
  cbn [load_feedback]. intros Hload.
  destruct (load_rows_shape _ _ _ Hload) as (Hnd & Hin & _).
  split; [apply Hnd; constructor|]. split.
  - intros k. rewrite Hin. split; [|eauto]. by intros [?|?].
  - intros ds1 d ds2 k Hds Hk Hlast. rewrite Hds, load_rows_app in Hload.
    unfold_result. destruct (load_rows [] ds1) as [h1|]; [|done].
    cbn [load_rows] in Hload. rewrite (getitem_Some _ _ _ Hk) in Hload.
    unfold_result. destruct (load_rows_shape _ _ _ Hload) as (_ & _ & Hget).
    rewrite (Hget k Hlast). apply dict_get_set_eq.
Qed.

Lemma load_feedback_last_record_wins_witness :
  dict_get (PStr "u1") twice_rated_history
  = Some (reader_row FIELDNAMES ["t2"; "x"; "A"; "u1"]).
Proof.
  pose proof (load_feedback_last_record_wins twice_rated_rows
                twice_rated_history eq_refl) as (_ & _ & Hlast).
  apply (Hlast [reader_row FIELDNAMES ["t1"; "y"; "A"; "u1"; "c"]]
           (reader_row FIELDNAMES ["t2"; "x"; "A"; "u1"]) [] (PStr "u1")).
  - reflexivity.
  - reflexivity.
  - constructor.
Defined.

(** ** A session and the file it leaves *)





Section view_facts.
Variable strptime_Ymd : string -> option Z.


End view_facts.




Section session_facts.
Variable strptime_Ymd : string -> option Z.
Variable strip_lower : string -> string.



End session_facts.


(** ** What a session does to its state *)

Section session_effect.
Variable strptime_Ymd : string -> option Z.
Variable strip_lower : string -> string.

(** The three ways a turn can end. *)
Lemma loop_body_cases videos s e t :
  loop_body strptime_Ymd strip_lower videos s e = Ok t ->
  t = Break s \/ t = Continue s
  \/ exists v,
       v ∈ videos /\ dict_in (PStr (link v)) (memory s) = false
       /\ strip_lower (typed e) ∈ RATINGS
       /\ t = Continue
                {| memory := memory s ++ [rated v (strip_lower (typed e))];
                   file := save_feedback (stamp e) v (strip_lower (typed e))
                             (Some (shown_summary e)) (file s) |}.
Proof.
  unfold loop_body. unfold_result.
  destruct (pick_video _ _ _ _ _) as [[v|]|] eqn:Hpick; [| |done].
  2:{ intros [= <-]. by left. }
  case_bool_decide; [intros [= <-]; by left|].
  case_bool_decide as Hrating; [|intros [= <-]; right; by left].
  intros [= <-]. right. right. exists v.
  apply pick_video_unrated in Hpick as [Hin Hnew].
  split; [done|]. split; [done|]. split; [done|].
  by rewrite (dict_set_absent _ _ _ (proj1 (dict_in_false _ _) Hnew)).
Qed.

(** The whole effect of a session: the turns at which a rating was
    given, each with the candidate it rated. *)
Lemma run_loop_effect videos es :
  forall s st s',
    run_loop strptime_Ymd strip_lower videos s es = Ok (st, s') ->
    exists turns : list (reading * video),
      memory s'
      = memory s
        ++ ((fun ev => rated ev.2 (strip_lower (typed ev.1))) <$> turns)
      /\ file s'
         = fold_left
             (fun f ev =>
                save_feedback (stamp ev.1) ev.2 (strip_lower (typed ev.1))
                  (Some (shown_summary ev.1)) f)
             turns (file s)
      /\ Forall (fun ev => ev.1 ∈ es /\ ev.2 ∈ videos
                           /\ strip_lower (typed ev.1) ∈ RATINGS) turns
      /\ NoDup ((fun ev => link ev.2) <$> turns)
      /\ Forall (fun ev => dict_in (PStr (link ev.2)) (memory s) = false) turns.
Proof.
  induction es as [|e es IH]; intros s st s'; cbn [run_loop]; unfold_result.
  { intros [= _ <-]. exists []. rewrite app_nil_r.
    repeat split; constructor. }
  destruct (loop_body strptime_Ymd strip_lower videos s e) as [t|] eqn:Hb;
    [|done].
  destruct (loop_body_cases _ _ _ _ Hb)
    as [->|[->|(v & Hin & Hnew & Hrating & ->)]].
  - intros [= _ <-]. exists []. rewrite app_nil_r. repeat split; constructor.
  - intros Hrun. destruct (IH _ _ _ Hrun) as (turns & Hm & Hf & Hall & Hnd & Hfresh).
    exists turns. repeat split; try done.
    eapply Forall_impl; [exact Hall|]. intros ev (? & ? & ?).
    repeat split; try done. by right.
  - intros Hrun.
    destruct (IH _ _ _ Hrun) as (turns & Hm & Hf & Hall & Hnd & Hfresh).
    cbn [memory file] in *. exists ((e, v) :: turns).
    assert (forall ev, ev ∈ turns ->
              dict_in (PStr (link ev.2)) (memory s) = false
              /\ link ev.2 <> link v) as Hold.
    { rewrite Forall_forall in Hfresh. intros ev Hev.
      specialize (Hfresh ev Hev). apply dict_in_false in Hfresh.
      split.
      - apply dict_in_false. clear -Hfresh.
        induction (memory s) as [|[k d] m IHm]; [done|]. simpl in *.
        destruct (decide (PStr (link ev.2) = k)); [done|]. by apply IHm.
      - intros Heq. rewrite Heq in Hfresh. clear -Hfresh.
        induction (memory s) as [|[k d] m IHm]; simpl in *.
        + by rewrite decide_True in Hfresh.
        + destruct (decide (PStr (link v) = k)); [done|]. by apply IHm. }
    split; [|split; [|split; [|split]]].
    + rewrite Hm, fmap_cons, <- app_assoc. done.
    + done.
    + constructor.
      * cbn [fst snd]. split; [left|done].
      * eapply Forall_impl; [exact Hall|]. intros ev (? & ? & ?).
        repeat split; try done. by right.
    + rewrite fmap_cons. constructor; [|done]. cbn [snd].
      intros (ev & Hlink & Hev)%list_elem_of_fmap.
      destruct (Hold ev Hev) as [_ Hne]. congruence.
    + constructor; [done|]. apply Forall_forall. intros ev Hev.
      by destruct (Hold ev Hev).
Qed.

(** X10: a session only appends.  Whatever the turns, the feedback
    memory at the end is the one at the start followed by one entry per
    rating given, in the order given, and the feedback file is the one
    at the start with one [save_feedback] per rating; every rating is
    one of the three and is for one of the candidates. *)
Theorem session_only_appends (videos : list video) (s : session)
    (es : list reading) (st : status) (s' : session) :
  run_loop strptime_Ymd strip_lower videos s es = Ok (st, s') ->
  exists turns : list (reading * video),
    memory s'
    = memory s
      ++ ((fun ev => rated ev.2 (strip_lower (typed ev.1))) <$> turns)
    /\ file s'
       = fold_left
           (fun f ev =>
              save_feedback (stamp ev.1) ev.2 (strip_lower (typed ev.1))
                (Some (shown_summary ev.1)) f)
           turns (file s)
    /\ Forall (fun ev => ev.1 ∈ es /\ ev.2 ∈ videos
                         /\ strip_lower (typed ev.1) ∈ RATINGS) turns.
Proof.
  intros Hrun.
  destruct (run_loop_effect _ _ _ _ _ Hrun) as (turns & Hm & Hf & Hall & _).
  by exists turns.
Qed.

(** X11: a session rates a link at most once.  The entries it adds to
    the feedback memory have pairwise different keys, none of them a key
    the memory had at the start, each the link of a candidate; so it
    adds at most as many entries as there are candidates. *)
Theorem session_rates_each_link_once (videos : list video) (s : session)
    (es : list reading) (st : status) (s' : session) :
  run_loop strptime_Ymd strip_lower videos s es = Ok (st, s') ->
  exists new : history,
    memory s' = memory s ++ new
    /\ NoDup new.*1
    /\ Forall (fun k => dict_in k (memory s) = false
                        /\ exists v, v ∈ videos /\ k = PStr (link v)) new.*1
    /\ (length new <= length videos)%nat.
Proof.
  intros Hrun.
  destruct (run_loop_effect _ _ _ _ _ Hrun)
    as (turns & Hm & _ & Hall & Hnd & Hfresh).
  exists ((fun ev => rated ev.2 (strip_lower (typed ev.1))) <$> turns).
  assert (((fun ev : reading * video =>
              rated ev.2 (strip_lower (typed ev.1))) <$> turns).*1
          = PStr <$> ((fun ev : reading * video => link ev.2) <$> turns))
    as Hkeys.
  { rewrite <- !list_fmap_compose. by apply list_fmap_ext. }
  split; [done|]. rewrite Hkeys. split; [|split].
  - assert (Inj (=) (=) PStr) by (by intros ?? [= ->]).
    by apply (NoDup_fmap_2 PStr).
  - apply Forall_fmap, Forall_fmap, Forall_forall. intros ev Hev. cbn.
    rewrite Forall_forall in Hfresh, Hall.
    split; [by apply Hfresh|]. exists ev.2.
    split; [by apply (Hall ev Hev)|done].
  - rewrite length_fmap, <- (length_fmap (fun ev : reading * video => link ev.2)),
      <- (length_fmap link videos).
    apply submseteq_length, NoDup_submseteq; [done|].
    intros l (ev & -> & Hev)%list_elem_of_fmap.
    rewrite Forall_forall in Hall. apply list_elem_of_fmap_2.
    by apply (Hall ev Hev).
Qed.
End session_effect.

Lemma session_only_appends_witness :
  exists turns : list (reading * video),
    memory {| memory := history_never_definitely;
              file := Some [FIELDNAMES;
                            feedback_row "2026-11-03T12:00:00" video_a "never"
                              (Some "A");
                            feedback_row "2026-11-03T12:01:00" video_b
                              "definitely" (Some "B")] |}
    = memory fresh_session
      ++ ((fun ev => rated ev.2 (lower_only (typed ev.1))) <$> turns)
    /\ file {| memory := history_never_definitely;
               file := Some [FIELDNAMES;
                             feedback_row "2026-11-03T12:00:00" video_a "never"
                               (Some "A");
                             feedback_row "2026-11-03T12:01:00" video_b
                               "definitely" (Some "B")] |}
       = fold_left
           (fun f ev =>
              save_feedback (stamp ev.1) ev.2 (lower_only (typed ev.1))
                (Some (shown_summary ev.1)) f)
           turns (file fresh_session)
    /\ Forall (fun ev => ev.1 ∈ [turn_never; turn_later; turn_definitely]
                         /\ ev.2 ∈ [video_a; video_b; video_today]
                         /\ lower_only (typed ev.1) ∈ RATINGS) turns.
Proof.
  apply (session_only_appends strptime_8digits lower_only
           [video_a; video_b; video_today] fresh_session
           [turn_never; turn_later; turn_definitely] ACTIVE).
  vm_compute. reflexivity.
Defined.

Lemma session_rates_each_link_once_witness :
  exists new : history,
    history_never_definitely = memory fresh_session ++ new
    /\ NoDup new.*1
    /\ Forall (fun k => dict_in k (memory fresh_session) = false
                        /\ exists v, v ∈ [video_a; video_b; video_today]
                                     /\ k = PStr (link v)) new.*1
    /\ (length new <= length [video_a; video_b; video_today])%nat.
Proof.
  apply (session_rates_each_link_once strptime_8digits lower_only
           [video_a; video_b; video_today] fresh_session
           [turn_never; turn_later; turn_definitely] ACTIVE
           {| memory := history_never_definitely;
              file := Some [FIELDNAMES;
                            feedback_row "2026-11-03T12:00:00" video_a "never"
                              (Some "A");
                            feedback_row "2026-11-03T12:01:00" video_b
                              "definitely" (Some "B")] |}).
  vm_compute. reflexivity.
Defined.

(** ** [summarize_text] *)

Lemma split_sentences_nonempty (s : text) : split_sentences s <> [].
Proof.
  destruct s as [|c [|c' s'']]; simpl; try done.
  destruct ((c =? U_DOT) && (c' =? U_SPACE))%N; [done|].
  by destruct (match s'' with [] => _ | _ :: _ => _ end).
Qed.

Lemma join_cons_head (sep : text) (c : N) (p : text) (ps : list text) :
  join sep ((c :: p) :: ps) = c :: join sep (p :: ps).
Proof. by destruct ps. Qed.

Lemma split_sentences_step (c c' : N) (s : text) :
  split_sentences (c :: c' :: s)
  = if ((c =? U_DOT) && (c' =? U_SPACE))%N then [] :: split_sentences s
    else match split_sentences (c' :: s) with
         | p :: ps => (c :: p) :: ps
         | [] => [[c]]
         end.
Proof. reflexivity. Qed.

Lemma join_cons_more (sep p : text) (ps : list text) :
  ps <> [] -> join sep (p :: ps) = p ++ sep ++ join sep ps.
Proof. by destruct ps. Qed.

(** Splitting and joining again gives the text back. *)
Lemma join_split_sentences (s : text) :
  join [U_DOT; U_SPACE] (split_sentences s) = s.
Proof.
  cut (join [U_DOT; U_SPACE] (split_sentences s) = s
       /\ forall c, join [U_DOT; U_SPACE] (split_sentences (c :: s)) = c :: s).
  { by intros [? _]. }
  induction s as [|c' s'' [IH1 IH2]]; [done|]. split; [apply IH2|].
  intros c. rewrite split_sentences_step.
  destruct ((c =? U_DOT) && (c' =? U_SPACE))%N eqn:Hsep.
  - apply andb_true_iff in Hsep as [->%N.eqb_eq ->%N.eqb_eq].
    rewrite join_cons_more by apply split_sentences_nonempty.
    by rewrite IH1.
  - pose proof (split_sentences_nonempty (c' :: s'')) as Hne.
    specialize (IH2 c').
    destruct (split_sentences (c' :: s'')) as [|p ps]; [done|].
    by rewrite join_cons_head, IH2.
Qed.

Lemma join_take_prefix (sep : text) (parts : list text) (n : nat) :
  join sep (take n parts) `prefix_of` join sep parts.
Proof.
  revert n. induction parts as [|p ps IH]; intros [|n]; simpl take;
    try apply prefix_nil.
  specialize (IH n). cbn [join].
  destruct ps as [|p' ps'].
  - by rewrite take_nil.
  - destruct (take n (p' :: ps')) as [|q qs] eqn:Ht.
    + by apply prefix_app_r.
    + by apply prefix_app, prefix_app.
Qed.

Lemma replace_newlines_no_LF (s : text) : U_LF ∉ replace_newlines s.
Proof.
  unfold replace_newlines. intros (c & Hc & _)%list_elem_of_fmap.
  destruct (N.eqb_spec c U_LF); [done|]. congruence.
Qed.

(** The summary before the cut. *)
Lemma summarize_text_shape (s : text) (max_len : nat) :
  exists summary,
    summary `prefix_of` replace_newlines s
    /\ summarize_text s max_len
       = take max_len summary
         ++ (if (max_len <? length summary)%nat then ELLIPSIS else []).
Proof.
  exists (join [U_DOT; U_SPACE] (take 4 (split_sentences (replace_newlines s)))).
  split.
  - rewrite <- (join_split_sentences (replace_newlines s)) at 2.
    apply join_take_prefix.
  - unfold summarize_text.
    destruct (Nat.ltb_spec 4 (length (split_sentences (replace_newlines s))));
      [done|].
    by rewrite (take_ge (split_sentences (replace_newlines s)) 4) by done.
Qed.

Lemma summarize_text_length (s : text) (max_len : nat) :
  (length (summarize_text s max_len) <= max_len + 3)%nat.
Proof.
  destruct (summarize_text_shape s max_len) as (summary & _ & ->).
  rewrite length_app, length_take.
  destruct (max_len <? length summary)%nat; simpl; lia.
Qed.

Lemma summarize_text_no_LF (s : text) (max_len : nat) :
  U_LF ∉ summarize_text s max_len.
Proof.
  destruct (summarize_text_shape s max_len) as (summary & [rest Hpre] & ->).
  intros [Hin|Hin]%elem_of_app.
  - apply elem_of_take in Hin as (i & Hi%list_elem_of_lookup_2 & _).
    apply (replace_newlines_no_LF s). rewrite Hpre. apply elem_of_app. by left.
  - destruct (max_len <? length summary)%nat; [|by apply elem_of_nil in Hin].
    unfold ELLIPSIS in Hin.
    repeat (apply elem_of_cons in Hin as [Hin|Hin]; [done|]).
    by apply elem_of_nil in Hin.
Qed.

(** X12: the summary is an initial part of the text with its line feeds
    replaced by spaces, cut after [max_len] characters and followed by
    three full stops when it was longer; it holds no line feed and has
    at most [max_len + 3] characters. *)
Theorem summary_is_a_cut_prefix (s : text) (max_len : nat) :
  (exists summary,
     summary `prefix_of` replace_newlines s
     /\ summarize_text s max_len
        = if (max_len <? length summary)%nat
          then take max_len summary ++ ELLIPSIS
          else summary)
  /\ (U_LF ∉ summarize_text s max_len)
  /\ (length (summarize_text s max_len) <= max_len + 3)%nat.
Proof.
  split; [|split; [apply summarize_text_no_LF|apply summarize_text_length]].
  destruct (summarize_text_shape s max_len) as (summary & Hpre & ->).
  exists summary. split; [done|].
  destruct (Nat.ltb_spec max_len (length summary)); [done|].
  by rewrite take_ge, app_nil_r by done.
Qed.

(** X13: a text without line feed, of at most four sentences and at most
    [max_len] characters, is its own summary. *)
Theorem short_text_is_its_own_summary (s : text) (max_len : nat) :
  U_LF ∉ s ->
  (length (split_sentences s) <= 4)%nat ->
  (length s <= max_len)%nat ->
  summarize_text s max_len = s.
Proof.
  intros Hlf Hfour Hlen.
  assert (replace_newlines s = s) as Hr.
  { unfold replace_newlines. rewrite <- (list_fmap_id s) at 2.
    apply Forall_fmap_ext_1, Forall_forall. intros c Hc.
    destruct (N.eqb_spec c U_LF); [|done]. congruence. }
  unfold summarize_text. rewrite Hr.
  destruct (Nat.ltb_spec 4 (length (split_sentences s))); [lia|].
  rewrite join_split_sentences.
  destruct (Nat.ltb_spec max_len (length s)); [lia|].
  by rewrite take_ge, app_nil_r by done.
Qed.

Lemma short_text_is_its_own_summary_witness :
  summarize_text [72; 105; 46; 32; 79; 107]%N MAX_LEN = [72; 105; 46; 32; 79; 107]%N.
Proof.
  apply (short_text_is_its_own_summary [72; 105; 46; 32; 79; 107]%N MAX_LEN).
  - intros Hin.
    repeat (apply elem_of_cons in Hin as [Hin|Hin]; [done|]).
    by apply elem_of_nil in Hin.
  - vm_compute. lia.
  - vm_compute. lia.
Defined.

(** X14: whatever the transcript service returns, and whatever the
    description and the title, the summary shown for a candidate has at
    most 223 characters, and it holds no line feed. *)
Theorem shown_summary_is_short (transcript : option (list text))
    (description title : text) :
  (length (shown transcript description title) <= 223)%nat
  /\ (U_LF ∉ shown transcript description title).
Proof.
  unfold shown, get_transcript_summary.
  destruct transcript as [lines|].
  - pose proof (summarize_text_length (join [U_SPACE] (take 40 lines)) MAX_LEN).
    pose proof (summarize_text_no_LF (join [U_SPACE] (take 40 lines)) MAX_LEN).
    destruct (summarize_text (join [U_SPACE] (take 40 lines)) MAX_LEN)
      as [|c sm].
    + split; [apply summarize_text_length|apply summarize_text_no_LF].
    + unfold MAX_LEN in *. split; [lia|done].
  - split; [apply summarize_text_length|apply summarize_text_no_LF].
Qed.

(** ** The duration of a search result *)

Lemma fold_left_add (l : list Z) (a : Z) : fold_left Z.add l a = a + Z_sum l.
Proof.
  revert a. induction l as [|x l IH]; intros a; simpl; [lia|].
  rewrite IH. lia.
Qed.

Lemma Z_sum_imap_scale {A : Type} (f : nat -> A -> Z) (l : list A) :
  Z_sum (imap (fun i y => 60 * f i y) l) = 60 * Z_sum (imap f l).
Proof.
  unfold Z_sum. revert f. induction l as [|y l IH]; intros f; [done|].
  rewrite !imap_cons. cbn [foldr]. specialize (IH (f ∘ S)).
  unfold compose in *. cbv beta in *. lia.
Qed.

Lemma seconds_snoc (parts : list Z) (x : Z) :
  seconds (parts ++ [x]) = 60 * seconds parts + x.
Proof.
  unfold seconds. rewrite reverse_snoc, imap_cons, !fold_left_add. simpl.
  rewrite (imap_ext (_ ∘ S) (fun i y => 60 * (y * 60 ^ Z.of_nat i))).
  - rewrite Z_sum_imap_scale. change (60 ^ Z.of_nat 0) with 1. lia.
  - intros i y _. unfold compose. rewrite Nat2Z.inj_succ, Z.pow_succ_r by lia.
    lia.
Qed.

Lemma seconds_horner (parts : list Z) :
  seconds parts = fold_left (fun acc x => 60 * acc + x) parts 0.
Proof.
  induction parts as [|x parts IH] using rev_ind; [done|].
  by rewrite seconds_snoc, fold_left_app, <- IH.
Qed.

(** X15: the duration of a search result.  When every part between the
    colons is an integer, the duration is the parts read as a number in
    base 60, most significant part first; so [m:s] is [60 m + s] and
    [h:m:s] is [3600 h + 60 m + s].  When a part is not an integer the
    duration is 0 and the result is passed over as too short. *)
Theorem duration_is_base_60 (py_int : text -> option Z) (duration_str : text) :
  (forall parts,
     map_int py_int (split_colon duration_str) = Some parts ->
     parse_duration py_int duration_str
     = fold_left (fun acc x => 60 * acc + x) parts 0
     /\ (forall m s, parts = [m; s] ->
           parse_duration py_int duration_str = 60 * m + s)
     /\ (forall h m s, parts = [h; m; s] ->
           parse_duration py_int duration_str = 3600 * h + 60 * m + s))
  /\ (map_int py_int (split_colon duration_str) = None ->
      parse_duration py_int duration_str = 0
      /\ keeps_duration py_int duration_str = false).
Proof.
  split.
  - intros parts Hparts. unfold parse_duration. rewrite Hparts, seconds_horner.
    split; [done|]. split.
    + intros m s ->. simpl. lia.
    + intros h m s ->. simpl. lia.
  - intros Hnone. unfold keeps_duration, parse_duration. by rewrite Hnone.
Qed.

Lemma duration_is_base_60_witness :
  parse_duration int_of_digits [49; 58; 48; 50; 58; 48; 51]%N = 3723
  /\ keeps_duration int_of_digits [49; 58; 120]%N = false.
Proof.
  split.
  - apply (proj1 (duration_is_base_60 int_of_digits
                    [49; 58; 48; 50; 58; 48; 51]%N) [1; 2; 3]);
      reflexivity.
  - apply (proj2 (duration_is_base_60 int_of_digits [49; 58; 120]%N)).
    reflexivity.
Defined.

(** ** The simpler script variant *)

Lemma legacy_keyword_step_inert v base fb :
  inert fb -> Legacy.keyword_step v base fb = Ok base.
Proof.
  intros [[kw Hk] (f & Hf & H1 & H2 & H3)]. unfold Legacy.keyword_step.
  rewrite (getitem_Some _ _ _ Hk), (getitem_Some _ _ _ Hf). unfold_result.
  destruct (py_eq kw _); [|done].
  unfold py_eq. by rewrite !bool_decide_eq_false_2 by done.
Qed.

Lemma legacy_keyword_loop_inert v fbs base :
  Forall inert fbs -> Legacy.keyword_loop v base fbs = Ok base.
Proof.
  induction 1 as [|fb fbs Hfb _ IH]; [done|]. cbn [Legacy.keyword_loop].
  by rewrite legacy_keyword_step_inert.
Qed.

Lemma legacy_weights_loop_inert cs (h : history) :
  Forall inert (dict_values h) ->
  Legacy.weights_loop cs h = Ok (replicate (length cs) 1).
Proof.
  intros Hin. induction cs as [|c cs IH]; [done|]. cbn [Legacy.weights_loop].
  rewrite legacy_keyword_loop_inert, IH by done. done.
Qed.

Lemma filter_ones {A : Type} (cs : list A) :
  filter (fun vw : A * Z => 0 < vw.2) (zip cs (replicate (length cs) 1))
  = zip cs (replicate (length cs) 1).
Proof.
  induction cs as [|c cs IH]; [done|]. cbn [length replicate zip zip_with].
  rewrite filter_cons_True by (simpl; lia). by rewrite IH.
Qed.

Lemma filter_replicate_ones (n : nat) :
  filter (fun w => 0 < w) (replicate n 1) = replicate n 1.
Proof.
  induction n as [|n IH]; [done|]. cbn [replicate].
  rewrite filter_cons_True by lia. by rewrite IH.
Qed.

Lemma Z_sum_replicate_ones (n : nat) : Z_sum (replicate n 1) = Z.of_nat n.
Proof.
  induction n as [|n IH]; [done|].
  change (Z_sum (replicate (S n) 1)) with (1 + Z_sum (replicate n 1)). lia.
Qed.

(** X16: in the simpler script, on a history whose ratings are none of
    [definitely], [maybe] and [never], every unrated candidate has
    weight 1 and the draw is uniform: the draw [r] returns the unrated
    candidate at position [r]. *)
Theorem legacy_draw_is_uniform (r : Z) (videos : list Legacy.video)
    (h : history) (i : nat) (c : Legacy.video) :
  Forall inert (dict_values h) ->
  Legacy.unrated videos h !! i = Some c ->
  r = Z.of_nat i ->
  Legacy.weights_loop (Legacy.unrated videos h) h
  = Ok (replicate (length (Legacy.unrated videos h)) 1)
  /\ Legacy.pick_video r videos h = Ok (Some c).
Proof.
  intros Hin Hi ->. split; [by apply legacy_weights_loop_inert|].
  unfold Legacy.pick_video. cbn zeta.
  rewrite legacy_weights_loop_inert by done. unfold_result.
  set (cs := Legacy.unrated videos h) in *.
  assert (cs <> []) as Hne by (intros Hnil; by rewrite Hnil in Hi).
  rewrite bool_decide_eq_false_2 by done.
  rewrite filter_ones, filter_replicate_ones.
  rewrite fst_zip by (by rewrite length_replicate).
  rewrite bool_decide_eq_false_2 by done.
  pose proof (lookup_lt_Some _ _ _ Hi) as Hlt.
  rewrite (random_choices_interval cs (replicate (length cs) 1) (Z.of_nat i)
             i c 1); [done| | |done| |].
  - apply length_replicate.
  - apply Forall_replicate. lia.
  - by apply lookup_replicate.
  - rewrite take_replicate, Z_sum_replicate_ones. lia.
Qed.

Lemma legacy_draw_is_uniform_witness :
  Legacy.weights_loop (Legacy.unrated [clip_a; clip_b] []) []
  = Ok (replicate (length (Legacy.unrated [clip_a; clip_b] [])) 1)
  /\ Legacy.pick_video 1 [clip_a; clip_b] [] = Ok (Some clip_b).
Proof.
  apply (legacy_draw_is_uniform 1 [clip_a; clip_b] [] 1%nat clip_b).
  - constructor.
  - reflexivity.
  - reflexivity.
Defined.

Lemma legacy_rating_is_inert (v : Legacy.video) (feedback : string) :
  feedback ∈ Legacy.RATINGS ->
  inert (dict_or (Legacy.video_dict v) [(PStr "feedback", PStr feedback)]).
Proof.
  intros Hin. split; [by eexists|]. exists (PStr feedback).
  split; [done|]. unfold Legacy.RATINGS in Hin.
  repeat (apply elem_of_cons in Hin as [->|Hin]; [by repeat split|]).
  by apply elem_of_nil in Hin.
Qed.

(** X17: in the simpler script the ratings of a session change no
    weight.  The loop stores the ratings [n], [m] and [y], which the
    keyword loop does not know: from a history without [definitely],
    [maybe] and [never], every history the session goes through is such
    a history, and all weights stay 1. *)
Theorem legacy_ratings_change_no_weight (strip_lower : string -> string)
    (videos : list Legacy.video) (s : session) (es : list Legacy.reading)
    (st : status) (s' : session) :
  Forall inert (dict_values (memory s)) ->
  Legacy.run_loop strip_lower videos s es = Ok (st, s') ->
  Forall inert (dict_values (memory s'))
  /\ forall candidates,
       Legacy.weights_loop candidates (memory s')
       = Ok (replicate (length candidates) 1).
Proof.
  intros Hin Hrun.
  cut (Forall inert (dict_values (memory s'))).
  { intros Hin'. split; [done|]. intros cs.
    by apply legacy_weights_loop_inert. }
  revert s Hin Hrun. induction es as [|e es IH]; intros s Hin;
    cbn [Legacy.run_loop]; unfold_result.
  { by intros [= _ <-]. }
  unfold Legacy.loop_body. unfold_result.
  destruct (Legacy.pick_video _ _ _) as [[v|]|]; [| |done].
  2:{ by intros [= _ <-]. }
  case_bool_decide; [by intros [= _ <-]|].
  case_bool_decide as Hrating; [|by apply IH].
  apply IH. cbn [memory]. apply Forall_forall.
  intros fb [->|Hfb]%dict_set_values.
  - by apply legacy_rating_is_inert.
  - rewrite Forall_forall in Hin. by apply Hin.
Qed.

Lemma legacy_ratings_change_no_weight_witness :
  Legacy.weights_loop [clip_b]
    [(PStr "u1",
      dict_or (Legacy.video_dict clip_a) [(PStr "feedback", PStr "y")])]
  = Ok [1].
Proof.
  destruct (legacy_ratings_change_no_weight lower_only [clip_a; clip_b]
              fresh_session [turn_y] ACTIVE
              {| memory :=
                   [(PStr "u1",
                     dict_or (Legacy.video_dict clip_a)
                       [(PStr "feedback", PStr "y")])];
                 file :=
                   Legacy.save_feedback "2026-11-03T12:00:00" clip_a "y" None |})
    as [_ Hw].
  - constructor.
  - vm_compute. reflexivity.
  - apply (Hw [clip_b]).
Defined.

(** ** How a session ends, and that it does not raise *)

Section session_end.
Variable strptime_Ymd : string -> option Z.
Variable strip_lower : string -> string.

Lemma pick_video_exhausted clock r videos (h : history) :
  Forall (fun v => dict_in (PStr (link v)) h = true) videos ->
  pick_video strptime_Ymd clock r videos h = Ok None.
Proof.
  intros Hall. rewrite pick_video_unfold.
  rewrite bool_decide_eq_true_2; [done|]. unfold unrated.
  induction Hall as [|v vs Hv _ IH]; [done|].
  rewrite filter_cons_False; [done|]. congruence.
Qed.

(** X18: the loop ends without writing.  When every candidate's link is
    in the feedback memory, the next turn ends the session whatever the
    user would type; and when a candidate is shown and the user types
    [quit], the session ends.  In both cases the feedback memory and the
    feedback file are left as they were, and later input is not read. *)
Theorem session_ends_without_writing (videos : list video) (s : session)
    (e : reading) (es : list reading) :
  (Forall (fun v => dict_in (PStr (link v)) (memory s) = true) videos ->
   run_loop strptime_Ymd strip_lower videos s (e :: es) = Ok (TERMINATED, s))
  /\ (forall v,
        pick_video strptime_Ymd (now_at e) (draw e) videos (memory s)
        = Ok (Some v) ->
        strip_lower (typed e) = "quit"%string ->
        run_loop strptime_Ymd strip_lower videos s (e :: es)
        = Ok (TERMINATED, s)).
Proof.
  split.
  - intros Hall. cbn [run_loop]. unfold loop_body.
    by rewrite pick_video_exhausted.
  - intros v Hpick Hquit. cbn [run_loop]. unfold loop_body.
    rewrite Hpick. unfold_result. by rewrite bool_decide_eq_true_2.
Qed.



End session_end.

Lemma session_ends_without_writing_witness :
  run_loop strptime_8digits lower_only [video_a]
    {| memory := history_never; file := None |} [turn_later; turn_never]
  = Ok (TERMINATED, {| memory := history_never; file := None |})
  /\ run_loop strptime_8digits lower_only [video_a; video_b] fresh_session
       [turn_quit; turn_never]
     = Ok (TERMINATED, fresh_session).
Proof.
  split.
  - apply (session_ends_without_writing strptime_8digits lower_only [video_a]
             {| memory := history_never; file := None |} turn_later
             [turn_never]).
    repeat constructor.
  - apply (proj2 (session_ends_without_writing strptime_8digits lower_only
                    [video_a; video_b] fresh_session turn_quit [turn_never])
             video_a).
    + reflexivity.
    + reflexivity.
Defined.

